(** * Pair-programming backend: the WebSocket session layer

    A shallow embedding of [backend/app/websockets.py] (the
    [ConnectionManager] and [websocket_endpoint]) together with the
    room-store functions of [backend/app/database.py] ([get_room] and
    [update_room_code], which the endpoint calls, and [create_room]), and
    the properties of the synchronisation layer proved about them.

    Python objects that travel through the handler are JSON values; the
    coroutine is run sequentially, one call at a time, on an explicit
    world: the manager's dictionary, the rooms table, and a log of the
    calls made on sockets and on the database session.

    The SQLAlchemy session a coroutine opens lives as long as the
    coroutine, and what it has loaded is part of the world: a row that a
    session holds unexpired is not read again from the table, an
    assignment of the value the session holds writes nothing for that
    column, and a commit expires what the session holds.  What the
    database driver writes into the text column for a value that is
    neither a string nor [None] belongs to the environment, like the
    faults of the sockets and of the database.

    Outside the model: logging (it has no effect on the state; the one
    log argument that can raise, [len(code)], is kept), the
    [created_at]/[updated_at] timestamps, what a commit that raised
    leaves in its session (the coroutine closes the session right after),
    and the interleaving of several coroutines inside one call: a call
    runs to its end, and several clients are obtained by running their
    coroutines one after the other on the same world. *)

From stdpp Require Import gmap strings list fin_maps.
From Stdlib Require Import DecimalString.

#[local] Set Warnings "-register-all,-clear-no-such-hyp".

Open Scope string_scope.
Open Scope list_scope.
Open Scope stdpp_scope.

(** ** Values *)

(** What [json.loads] produces and [send_json] consumes.  [JNull] is also
    Python's [None].  Numbers are kept to the integers. *)
Inductive json :=
| JNull
| JBool (b : bool)
| JNum (n : Z)
| JStr (s : string)
| JArr (items : list json)
| JObj (fields : list (string * json)).

(** The exception classes that can reach the handler.  All of them derive
    from [Exception]; only [WebSocketDisconnect] has a clause of its own. *)
Inductive exn :=
| WebSocketDisconnect
| JSONDecodeError
| AttributeError
| TypeError
| KeyError
| ValueError
| RuntimeError
| SQLAlchemyError.

(** A socket object; [==] on sockets is identity. *)
Abbreviation WebSocket := nat (only parsing).

(** A row of the [rooms] table, keyed by [room_id], and also the [Room]
    object a session has loaded from it.  In a row, [code] is what a text
    column can hold: a string, or [JNull] for NULL. *)
Record Room := { code : json; language : string }.

(** What a session holds for a row it has met: the attributes as it
    loaded them, or the mark that they are expired. *)
Inductive row_state :=
| Loaded (room : Room)
| Expired.

(** A session object, the [db] of [database.py]: either one that
    [SessionLocal()] has just returned and that serves one call and is
    dropped (what [get_db] hands to an API route), in which nothing is
    loaded; or the one that the coroutine of a socket opened before its
    [try] and keeps until its [finally]. *)
Inductive Session :=
| NewSession
| SessionOf (websocket : WebSocket).

Inductive chan_op := OpAccept | OpSend | OpClose.
Inductive db_op := OpQuery | OpCommit.

(** Calls that left the process, oldest first. *)
Inductive event :=
| EvAccept (ws : WebSocket)
| EvSend (ws : WebSocket) (message : json)
| EvSendFailed (ws : WebSocket) (message : json)
| EvClose (ws : WebSocket) (close_code : Z) (reason : string)
| EvCommit (room_id : string) (new_code : json).

(** ** The world *)

Record World := {
  active_connections : gmap string (list WebSocket);
  rooms : gmap string Room;
  (** per coroutine, what its session has loaded, by room id *)
  sessions : gmap WebSocket (gmap string row_state);
  calls : list event;
  (** the environment: which socket operation raises what, which database
      operation raises (a [SQLAlchemyError]), and what the database driver
      makes of a parameter for the text column that is neither a string
      nor [None]: the text it writes, or nothing when it refuses the
      value *)
  chan_fault : WebSocket → chan_op → option exn;
  db_fault : db_op → bool;
  bind_param : json → option json
}.

Definition set_connections (c : gmap string (list WebSocket)) (w : World) : World :=
  {| active_connections := c; rooms := rooms w; sessions := sessions w;
     calls := calls w;
     chan_fault := chan_fault w; db_fault := db_fault w;
     bind_param := bind_param w |}.

Definition set_rooms (r : gmap string Room) (w : World) : World :=
  {| active_connections := active_connections w; rooms := r;
     sessions := sessions w; calls := calls w;
     chan_fault := chan_fault w; db_fault := db_fault w;
     bind_param := bind_param w |}.

Definition set_sessions (s : gmap WebSocket (gmap string row_state)) (w : World) : World :=
  {| active_connections := active_connections w; rooms := rooms w;
     sessions := s; calls := calls w;
     chan_fault := chan_fault w; db_fault := db_fault w;
     bind_param := bind_param w |}.

Definition log (e : event) (w : World) : World :=
  {| active_connections := active_connections w; rooms := rooms w;
     sessions := sessions w;
     calls := calls w ++ [e];
     chan_fault := chan_fault w; db_fault := db_fault w;
     bind_param := bind_param w |}.

(** ** Computations that read and write the world and may raise *)

Inductive res (A : Type) :=
| Ret (a : A)
| Raise (e : exn).
Arguments Ret {A} a.
Arguments Raise {A} e.

Definition M (A : Type) : Type := World → res A * World.

#[global] Instance M_ret : MRet M := λ A a w, (Ret a, w).

#[global] Instance M_bind : MBind M := λ A B f m w,
  match m w with
  | (Ret a, w') => f a w'
  | (Raise e, w') => (Raise e, w')
  end.

Definition raise {A} (e : exn) : M A := λ w, (Raise e, w).

(** [try: body except e: handler e]; a handler answering [None] does not
    match the exception, which then propagates. *)
Definition try_except {A} (body : M A) (handler : exn → option (M A)) : M A :=
  λ w, match body w with
       | (Ret a, w') => (Ret a, w')
       | (Raise e, w') =>
           match handler e with
           | Some h => h w'
           | None => (Raise e, w')
           end
       end.

Definition get_connections : M (gmap string (list WebSocket)) :=
  λ w, (Ret (active_connections w), w).

Definition put_connections (c : gmap string (list WebSocket)) : M unit :=
  λ w, (Ret tt, set_connections c w).

(** ** Socket operations *)

Definition accept (ws : WebSocket) : M unit := λ w,
  match chan_fault w ws OpAccept with
  | Some e => (Raise e, w)
  | None => (Ret tt, log (EvAccept ws) w)
  end.

Definition send_json (ws : WebSocket) (message : json) : M unit := λ w,
  match chan_fault w ws OpSend with
  | Some e => (Raise e, log (EvSendFailed ws message) w)
  | None => (Ret tt, log (EvSend ws message) w)
  end.

Definition close (ws : WebSocket) (close_code : Z) (reason : string) : M unit := λ w,
  match chan_fault w ws OpClose with
  | Some e => (Raise e, w)
  | None => (Ret tt, log (EvClose ws close_code reason) w)
  end.

(** ** Python helpers *)

(** [l.remove(x)]: drops the first occurrence, [None] for [ValueError]. *)
Fixpoint list_remove (x : WebSocket) (l : list WebSocket) : option (list WebSocket) :=
  match l with
  | [] => None
  | y :: l' => if decide (y = x) then Some l' else (y ::.) <$> list_remove x l'
  end.

Fixpoint assoc_get (k : string) (fields : list (string * json)) : option json :=
  match fields with
  | [] => None
  | (k', v) :: rest => if decide (k' = k) then Some v else assoc_get k rest
  end.

(** [message.get(key, dflt)]; only a dict has a [get]. *)
Definition py_get (message : json) (key : string) (dflt : json) : M json :=
  match message with
  | JObj fields => mret (default dflt (assoc_get key fields))
  | _ => raise AttributeError
  end.

(** [v == s] for a string literal [s]. *)
Definition str_eq (v : json) (s : string) : bool :=
  match v with
  | JStr t => bool_decide (t = s)
  | _ => false
  end.

(** [len(v)]. *)
Definition py_len (v : json) : M nat :=
  match v with
  | JStr s => mret (String.length s)
  | JArr items => mret (length items)
  | JObj fields => mret (length fields)
  | _ => raise TypeError
  end.

(** ** database.py *)

(** What the session [db] holds, by room id. *)
Definition identity_map (db : Session) (w : World) : gmap string row_state :=
  match db with
  | NewSession => ∅
  | SessionOf ws => default ∅ (sessions w !! ws)
  end.

Definition set_identity_map (db : Session) (held : gmap string row_state)
    (w : World) : World :=
  match db with
  | NewSession => w
  | SessionOf ws => set_sessions (<[ws := held]> (sessions w)) w
  end.

(** [db.query(Room).filter(Room.room_id == room_id).first()]: no row, no
    object; a row the session holds unexpired comes back as the session
    holds it, without a look at the columns just read; otherwise the
    object is filled from the row. *)
Definition get_room (db : Session) (room_id : string) : M (option Room) := λ w,
  if db_fault w OpQuery
  then (Raise SQLAlchemyError, w)
  else match rooms w !! room_id with
       | None => (Ret None, w)
       | Some row =>
           match identity_map db w !! room_id with
           | Some (Loaded room) => (Ret (Some room), w)
           | _ =>
               (Ret (Some row),
                set_identity_map db (<[room_id := Loaded row]> (identity_map db w)) w)
           end
       end.

(** [new == loaded] for a value [loaded] that was read from the text
    column: a string equals the same string, [None] equals [None], and a
    number, a boolean, a list or a dict equals neither. *)
Definition same_as_loaded (new_code loaded : json) : bool :=
  match new_code, loaded with
  | JStr s, JStr t => bool_decide (s = t)
  | JNull, JNull => true
  | _, _ => false
  end.

(** What the text column holds once a Python value has been written to
    it: a string as it is, [None] as NULL, anything else as the driver
    binds it; a value the driver refuses makes the flush raise. *)
Definition column_value (w : World) (v : json) : option json :=
  match v with
  | JStr s => Some (JStr s)
  | JNull => Some JNull
  | _ => bind_param w v
  end.

Definition write_code (v : json) (row : Room) : Room :=
  {| code := v; language := language row |}.

(** [room.code = code; room.updated_at = ...; db.commit()] on the object
    [room] the session holds.  The UPDATE carries the code column only if
    the assigned value differs from the one the session had loaded; the
    commit expires everything the session holds. *)
Definition commit_code (db : Session) (room_id : string) (room : Room)
    (new_code : json) : M unit := λ w,
  if db_fault w OpCommit
  then (Raise SQLAlchemyError, w)
  else
    let expired := set_identity_map db ((λ _, Expired) <$> identity_map db w) w in
    if same_as_loaded new_code (code room)
    then (Ret tt, log (EvCommit room_id new_code) expired)
    else match column_value w new_code with
         | None => (Raise SQLAlchemyError, w)
         | Some v =>
             (Ret tt,
              log (EvCommit room_id new_code)
                  (set_rooms (alter (write_code v) room_id (rooms w)) expired))
         end.

Definition update_room_code (db : Session) (room_id : string) (new_code : json) : M bool :=
  room ← get_room db room_id;
  match room with
  | Some r => commit_code db room_id r new_code;; mret true
  | None => mret false
  end.

(** ** ConnectionManager *)

Definition connect (websocket : WebSocket) (room_id : string) : M unit :=
  accept websocket;;
  conns ← get_connections;
  (if decide (conns !! room_id = None)
   then put_connections (<[room_id := []]> conns)
   else mret tt);;
  conns ← get_connections;
  match conns !! room_id with
  | Some l => put_connections (<[room_id := l ++ [websocket]]> conns)
  | None => raise KeyError
  end.

Definition disconnect (websocket : WebSocket) (room_id : string) : M unit :=
  conns ← get_connections;
  match conns !! room_id with
  | None => mret tt
  | Some l =>
      try_except
        (match list_remove websocket l with
         | None => raise ValueError
         | Some l' =>
             put_connections (<[room_id := l']> conns);;
             conns ← get_connections;
             match conns !! room_id with
             | Some [] => put_connections (delete room_id conns)
             | _ => mret tt
             end
         end)
        (λ e, match e with ValueError => Some (mret tt) | _ => None end)
  end.

(** The first loop of [broadcast]: send, collect the sockets that raised. *)
Fixpoint broadcast_sends (message : json) (sender : option WebSocket)
    (connections disconnected : list WebSocket) : M (list WebSocket) :=
  match connections with
  | [] => mret disconnected
  | connection :: rest =>
      d ← (if decide (Some connection ≠ sender)
           then try_except
                  (send_json connection message;; mret disconnected)
                  (λ _, Some (mret (disconnected ++ [connection])))
           else mret disconnected);
      broadcast_sends message sender rest d
  end.

(** The second loop: [for conn in disconnected: self.disconnect(conn, room_id)]. *)
Fixpoint disconnect_each (disconnected : list WebSocket) (room_id : string) : M unit :=
  match disconnected with
  | [] => mret tt
  | conn :: rest => disconnect conn room_id;; disconnect_each rest room_id
  end.

Definition broadcast (room_id : string) (message : json) (sender : option WebSocket) : M unit :=
  conns ← get_connections;
  match conns !! room_id with
  | None => mret tt
  | Some l =>
      disconnected ← broadcast_sends message sender l [];
      disconnect_each disconnected room_id
  end.

Fixpoint broadcast_to_all_sends (message : json)
    (connections disconnected : list WebSocket) : M (list WebSocket) :=
  match connections with
  | [] => mret disconnected
  | connection :: rest =>
      d ← try_except
            (send_json connection message;; mret disconnected)
            (λ _, Some (mret (disconnected ++ [connection])));
      broadcast_to_all_sends message rest d
  end.

Definition broadcast_to_all (room_id : string) (message : json) : M unit :=
  conns ← get_connections;
  match conns !! room_id with
  | None => mret tt
  | Some l =>
      disconnected ← broadcast_to_all_sends message l [];
      disconnect_each disconnected room_id
  end.

Definition get_room_user_count (room_id : string) : M nat :=
  conns ← get_connections;
  mret (length (default [] (conns !! room_id))).

(** ** websocket_endpoint *)

(** What the loop gets from [await websocket.receive_text()] followed by
    [json.loads(data)]. *)
Inductive inbound :=
| Frame (message : json)      (* a text frame that decodes to [message] *)
| BadFrame (data : string)    (* a text frame on which [json.loads] raises *)
| Disconnect                  (* [receive_text] raises [WebSocketDisconnect] *)
| ReceiveError (e : exn).     (* [receive_text] raises something else *)

Definition receive_and_load (i : inbound) : M json :=
  match i with
  | Frame message => mret message
  | BadFrame _ => raise JSONDecodeError
  | Disconnect => raise WebSocketDisconnect
  | ReceiveError e => raise e
  end.

(** Where the coroutine stands when the inputs given to it are used up. *)
Inductive status :=
| Streaming   (* suspended in [receive_text], waiting for the next frame *)
| Closed.     (* the coroutine has returned *)

Definition init_message (room : Room) (room_id : string) : json :=
  JObj [("type", JStr "init"); ("code", code room);
        ("roomId", JStr room_id); ("language", JStr (language room))].

Definition user_count_message (user_count : nat) : json :=
  JObj [("type", JStr "user_count"); ("count", JNum (Z.of_nat user_count))].

Definition code_update_message (new_code cursor_position : json) : json :=
  JObj [("type", JStr "code_update"); ("code", new_code);
        ("cursorPosition", cursor_position)].

Definition cursor_move_message (cursor_position : json) : json :=
  JObj [("type", JStr "cursor_move"); ("cursorPosition", cursor_position)].

Definition code_output_message (output error execution_status : json) : json :=
  JObj [("type", JStr "code_output"); ("output", output);
        ("error", error); ("status", execution_status)].

(** The body of the [try] up to the loop; [false] is the early [return]. *)
Definition join (websocket : WebSocket) (room_id : string) : M bool :=
  room ← get_room (SessionOf websocket) room_id;
  match room with
  | None =>
      close websocket 4004 "Room not found";;
      mret false
  | Some room =>
      connect websocket room_id;;
      send_json websocket (init_message room room_id);;
      user_count ← get_room_user_count room_id;
      broadcast_to_all room_id (user_count_message user_count);;
      mret true
  end.

(** One turn of [while True] after the frame has been decoded. *)
Definition handle_message (websocket : WebSocket) (room_id : string) (message : json) : M unit :=
  message_type ← py_get message "type" JNull;
  if str_eq message_type "code_update" then
    new_code ← py_get message "code" (JStr "");
    cursor_position ← py_get message "cursorPosition" (JNum 0);
    update_room_code (SessionOf websocket) room_id new_code;;
    broadcast room_id (code_update_message new_code cursor_position) (Some websocket);;
    py_len new_code;;
    mret tt
  else if str_eq message_type "cursor_move" then
    cursor_position ← py_get message "cursorPosition" (JNum 0);
    broadcast room_id (cursor_move_message cursor_position) (Some websocket)
  else if str_eq message_type "code_output" then
    output ← py_get message "output" JNull;
    error ← py_get message "error" JNull;
    execution_status ← py_get message "status" (JStr "running");
    broadcast_to_all room_id (code_output_message output error execution_status)
  else mret tt.

Fixpoint message_loop (websocket : WebSocket) (room_id : string)
    (inputs : list inbound) : M status :=
  match inputs with
  | [] => mret Streaming
  | i :: rest =>
      message ← receive_and_load i;
      handle_message websocket room_id message;;
      message_loop websocket room_id rest
  end.

(** [except WebSocketDisconnect: ...] and [except Exception as e: ...]. *)
Definition on_exception (websocket : WebSocket) (room_id : string) (e : exn)
    : option (M status) :=
  match e with
  | WebSocketDisconnect =>
      Some (disconnect websocket room_id;;
            user_count ← get_room_user_count room_id;
            broadcast_to_all room_id (user_count_message user_count);;
            mret Closed)
  | _ =>
      Some (disconnect websocket room_id;;
            mret Closed)
  end.

(** [db = SessionLocal()]: a session that holds nothing. *)
Definition open_session (websocket : WebSocket) : M unit := λ w,
  (Ret tt, set_sessions (delete websocket (sessions w)) w).

(** [db.close()]: the session lets go of what it holds. *)
Definition close_session (websocket : WebSocket) (w : World) : World :=
  set_sessions (delete websocket (sessions w)) w.

(** [try: ... finally: db.close()]: the session is closed when the
    coroutine ends, not while it waits for a frame. *)
Definition closing (websocket : WebSocket) (outcome : res status * World)
    : res status * World :=
  match outcome with
  | (Ret Streaming, w') => (Ret Streaming, w')
  | (r, w') => (r, close_session websocket w')
  end.

Definition finally_close (websocket : WebSocket) (body : M status) : M status :=
  λ w, closing websocket (body w).

(** The coroutine run from its start on the frames [inputs]. *)
Definition websocket_endpoint (websocket : WebSocket) (room_id : string)
    (inputs : list inbound) : M status :=
  open_session websocket;;
  finally_close websocket
    (try_except
       (admitted ← join websocket room_id;
        if admitted : bool then message_loop websocket room_id inputs else mret Closed)
       (on_exception websocket room_id)).

(** A coroutine suspended in the loop, resumed on further frames. *)
Definition resume (websocket : WebSocket) (room_id : string)
    (inputs : list inbound) : M status :=
  finally_close websocket
    (try_except (message_loop websocket room_id inputs)
                (on_exception websocket room_id)).

(** ** Observations *)

(** What was put on the wire for [ws] among [evs], in order. *)
Fixpoint inbox (ws : WebSocket) (evs : list event) : list json :=
  match evs with
  | [] => []
  | EvSend c message :: rest =>
      if decide (c = ws) then message :: inbox ws rest else inbox ws rest
  | _ :: rest => inbox ws rest
  end.

(** The calls made between [w] and a later world [w']. *)
Definition new_events (w w' : World) : list event :=
  drop (length (calls w)) (calls w').

Definition members (room_id : string) (w : World) : list WebSocket :=
  default [] (active_connections w !! room_id).

(** [send_json] on [ws] goes through. *)
Definition accepts (w : World) (ws : WebSocket) : Prop :=
  chan_fault w ws OpSend = None.

#[global] Instance accepts_dec w ws : Decision (accepts w ws).
Proof. unfold accepts. apply _. Defined.

(** ** Sample worlds *)

Definition no_chan_fault : WebSocket → chan_op → option exn := λ _ _, None.
Definition no_db_fault : db_op → bool := λ _, false.

Definition decimal (n : Z) : string := NilZero.string_of_int (Z.to_int n).

(** A driver that writes an integer as its decimal text, [True] and
    [False], which are integers in Python, as 1 and 0, and refuses lists
    and dicts. *)
Definition text_of_param (v : json) : option json :=
  match v with
  | JNum n => Some (JStr (decimal n))
  | JBool b => Some (JStr (if b then "1" else "0"))
  | _ => None
  end.

Definition sample_room : Room := {| code := JStr "x=1"; language := "python" |}.

(** A fresh process: nobody connected, one room in the table. *)
Definition world0 : World :=
  {| active_connections := ∅;
     rooms := {[ "abc12345" := sample_room ]};
     sessions := ∅;
     calls := [];
     chan_fault := no_chan_fault;
     db_fault := no_db_fault;
     bind_param := text_of_param |}.

Definition run {A} (m : M A) (w : World) : World := snd (m w).

(** ** Vocabulary of the statements *)

Definition append_calls (evs : list event) (w : World) : World :=
  {| active_connections := active_connections w; rooms := rooms w;
     sessions := sessions w;
     calls := calls w ++ evs;
     chan_fault := chan_fault w; db_fault := db_fault w;
     bind_param := bind_param w |}.

(** What [disconnect] leaves in the dictionary. *)
Definition remove_conn (ws : WebSocket) (room_id : string)
    (conns : gmap string (list WebSocket)) : gmap string (list WebSocket) :=
  match conns !! room_id with
  | None => conns
  | Some l =>
      match list_remove ws l with
      | None => conns
      | Some [] => delete room_id conns
      | Some l' => <[room_id := l']> conns
      end
  end.

(** No key is bound to the empty list. *)
Definition entries_nonempty (conns : gmap string (list WebSocket)) : Prop :=
  ∀ room_id l, conns !! room_id = Some l → l ≠ [].

(** A send to [c] is attempted by [broadcast] and raises. *)
Definition failed_on (w : World) (sender : option WebSocket) (c : WebSocket) : Prop :=
  Some c ≠ sender ∧ ¬ accepts w c.

#[global] Instance failed_on_dec w sender c : Decision (failed_on w sender c).
Proof. unfold failed_on. apply _. Defined.

(** The call [send_json] leaves in the log. *)
Definition send_event (w : World) (message : json) (c : WebSocket) : event :=
  if decide (accepts w c) then EvSend c message else EvSendFailed c message.

(** The dictionary after a broadcast over the members [l]. *)
Definition pruned (w : World) (room_id : string) (sender : option WebSocket)
    (l : list WebSocket) : gmap string (list WebSocket) :=
  foldl (λ conns d, remove_conn d room_id conns) (active_connections w)
        (filter (failed_on w sender) l).

(** The calls a broadcast over the members [l] makes. *)
Definition fan_out (w : World) (message : json) (sender : option WebSocket)
    (l : list WebSocket) : list event :=
  map (send_event w message) (filter (λ c, Some c ≠ sender) l).

(** Sample worlds for the broadcasts: three sockets in one room, the
    second of which no longer takes a send. *)
Definition second_is_dead : WebSocket → chan_op → option exn :=
  λ ws op, match ws, op with
           | 2, OpSend => Some RuntimeError
           | _, _ => None
           end.

Definition world_three : World :=
  {| active_connections := {[ "abc12345" := [1; 2; 3] ]};
     rooms := {[ "abc12345" := sample_room ]};
     sessions := ∅;
     calls := [];
     chan_fault := second_is_dead;
     db_fault := no_db_fault;
     bind_param := text_of_param |}.

(** A computation that, raising or not, leaves no key bound to the empty
    list if there was none before. *)
Definition keeps_nonempty {A} (m : M A) : Prop :=
  ∀ w, entries_nonempty (active_connections w) →
       entries_nonempty (active_connections (run m w)).

(** A computation that does not touch the manager's dictionary. *)
Definition same_connections {A} (m : M A) : Prop :=
  ∀ w, active_connections (run m w) = active_connections w.

(** Everything that can happen to the process between two observations:
    a call of a manager method, a run of the endpoint coroutine on some
    frames, or a change in the outside world (the table, the health of the
    sockets and of the database) that leaves the manager alone. *)
Inductive manager_step : World → World → Prop :=
| step_connect ws room_id w :
    manager_step w (run (connect ws room_id) w)
| step_disconnect ws room_id w :
    manager_step w (run (disconnect ws room_id) w)
| step_broadcast room_id message sender w :
    manager_step w (run (broadcast room_id message sender) w)
| step_broadcast_to_all room_id message w :
    manager_step w (run (broadcast_to_all room_id message) w)
| step_endpoint ws room_id inputs w :
    manager_step w (run (websocket_endpoint ws room_id inputs) w)
| step_resume ws room_id inputs w :
    manager_step w (run (resume ws room_id inputs) w)
| step_outside w w' :
    active_connections w' = active_connections w → manager_step w w'.

(** The worlds a process started with [ConnectionManager()] can be in. *)
Definition reachable (w : World) : Prop :=
  ∃ w0, active_connections w0 = ∅ ∧ rtc manager_step w0 w.

(** The endpoint, run for [ws] on [room_id], returns at once having made
    one call only, a close with code 4004 and the given reason, and
    leaves the manager's dictionary and the table as they were. *)
Definition rejected_with (reason : string) (ws : WebSocket) (room_id : string)
    (inputs : list inbound) (w : World) : Prop :=
  ∃ w', websocket_endpoint ws room_id inputs w = (Ret Closed, w')
        ∧ new_events w w' = [EvClose ws 4004 reason]
        ∧ active_connections w' = active_connections w
        ∧ rooms w' = rooms w.

Definition message_type_of (fields : list (string * json)) : json :=
  default JNull (assoc_get "type" fields).

(** [type] is one of the three the loop has a branch for. *)
Definition recognized (message_type : json) : bool :=
  str_eq message_type "code_update"
  || str_eq message_type "cursor_move"
  || str_eq message_type "code_output".

(** A frame that is not JSON, or JSON that is not an object. *)
Definition malformed (i : inbound) : Prop :=
  match i with
  | BadFrame _ => True
  | Frame (JObj _) => False
  | Frame _ => True
  | _ => False
  end.

(** The frame has no effect whatever and the coroutine waits for the next
    one. *)
Definition ignored (ws : WebSocket) (room_id : string) (i : inbound) (w : World) : Prop :=
  resume ws room_id [i] w = (Ret Streaming, w).

(** Two clients in the room "abc12345", both in the loop. *)
Definition world_two : World :=
  run (websocket_endpoint 2 "abc12345" [])
      (run (websocket_endpoint 1 "abc12345" []) world0).

(** The branch [if message_type == "code_update"]. *)
Definition code_of (fields : list (string * json)) : json :=
  default (JStr "") (assoc_get "code" fields).

Definition cursor_position_of (fields : list (string * json)) : json :=
  default (JNum 0) (assoc_get "cursorPosition" fields).

(** What the session [db] takes the row of [room_id] to be when the table
    holds [row]: what it has loaded, as long as that is not expired, and
    the row itself otherwise. *)
Definition held (db : Session) (room_id : string) (row : Room) (w : World) : Room :=
  match identity_map db w !! room_id with
  | Some (Loaded room) => room
  | _ => row
  end.

(** Client 1 sends the update of scenario 2. *)
Definition update_y2 : list (string * json) :=
  [("type", JStr "code_update"); ("code", JStr "y=2"); ("cursorPosition", JNum 3)].

(** Client 1 types the code back to what the room held when it joined. *)
Definition update_x1 : list (string * json) :=
  [("type", JStr "code_update"); ("code", JStr "x=1"); ("cursorPosition", JNum 3)].

(** [world_two] after client 2 has sent [update_y2]. *)
Definition world_two_after_y2 : World :=
  run (resume 2 "abc12345" [Frame (JObj update_y2)]) world_two.

(** A [code_update] frame without [code]. *)
Definition update_without_code : list (string * json) :=
  [("type", JStr "code_update")].

(** Client 1 joins and sends a [code_update] without [code]. *)
Definition world_blanked : World :=
  run (resume 1 "abc12345" [Frame (JObj update_without_code)])
      (run (websocket_endpoint 1 "abc12345" []) world0).

(** Then client 2 joins, and client 1 sends [update_y2]. *)
Definition world_blanked_after_y2 : World :=
  run (resume 1 "abc12345" [Frame (JObj update_y2)])
      (run (websocket_endpoint 2 "abc12345" []) world_blanked).

(** The claim of C7 about one [code_update] frame: the coroutine stays in
    the loop and every other member whose socket takes the send receives
    the envelope. *)
Definition relays_code_update (ws : WebSocket) (room_id : string)
    (fields : list (string * json)) (w : World) : Prop :=
  ∃ w', resume ws room_id [Frame (JObj fields)] w = (Ret Streaming, w')
        ∧ ∀ c, c ∈ members room_id w → c ≠ ws → accepts w c →
               code_update_message (code_of fields) (cursor_position_of fields)
               ∈ inbox c (new_events w w').

Definition commit_fails : db_op → bool :=
  λ op, match op with OpCommit => true | OpQuery => false end.

(** [world_two] with a database that refuses commits. *)
Definition world_two_commit_fails : World :=
  {| active_connections := active_connections world_two;
     rooms := rooms world_two;
     sessions := sessions world_two;
     calls := calls world_two;
     chan_fault := chan_fault world_two;
     db_fault := commit_fails;
     bind_param := bind_param world_two |}.

(** [world_two] after the room's row was deleted behind the server's back. *)
Definition world_two_row_gone : World :=
  set_rooms ∅ world_two.

(** The world after the coroutine of [ws] opened its session, loaded the
    row [room] and was admitted to the room. *)
Definition after_join (ws : WebSocket) (room_id : string) (room : Room) (w : World) : World :=
  let l := members room_id w ++ [ws] in
  let w0 := set_sessions (<[ws := <[room_id := Loaded room]> ∅]> (delete ws (sessions w))) w in
  let w3 := log (EvSend ws (init_message room room_id))
                (set_connections (<[room_id := l]> (active_connections w))
                                 (log (EvAccept ws) w0)) in
  set_connections
    (pruned w3 room_id None l)
    (append_calls (fan_out w3 (user_count_message (length l)) None l) w3).

(** A computation that, raising or not, adds no member to any room: what
    is listed after it is, room by room, a sublist of what was listed. *)
Definition admits_nobody {A} (m : M A) : Prop :=
  ∀ w r, members r (run m w) `sublist_of` members r w.

(** A computation that adds at most [ws], once and at the end, to the room
    [room_id], and nothing to the other rooms. *)
Definition admits_at_most {A} (ws : WebSocket) (room_id : string) (m : M A) : Prop :=
  ∀ w r, members r (run m w)
         `sublist_of` (if decide (r = room_id) then members r w ++ [ws] else members r w).

(** A database that refuses everything. *)
Definition commit_and_query_fail : db_op → bool := λ _, true.

(** ** database.py: creating a room *)

Definition newline : string := String (Ascii.ascii_of_nat 10) EmptyString.

Definition welcome_code : string := "# Welcome! Start coding here..." +:+ newline.

(** [db.add(new_room); db.commit()]: the insert goes through when the
    commit does and the primary key [room_id] is free; a taken key is an
    [IntegrityError], which is a [SQLAlchemyError]. *)
Definition add_and_commit (room_id : string) (new_room : Room) : M unit := λ w,
  if db_fault w OpCommit
  then (Raise SQLAlchemyError, w)
  else match rooms w !! room_id with
       | Some _ => (Raise SQLAlchemyError, w)
       | None =>
           (Ret tt,
            log (EvCommit room_id (code new_room))
                (set_rooms (<[room_id := new_room]> (rooms w)) w))
       end.

(** [db.refresh(new_room)]: one more query. *)
Definition refresh (room_id : string) : M unit := λ w,
  if db_fault w OpQuery
  then (Raise SQLAlchemyError, w)
  else (Ret tt, w).

(** [create_room]; [uuid] is what [str(uuid.uuid4())] evaluates to. *)
Definition create_room (uuid : string) (room_language : string) : M string :=
  let room_id := String.substring 0 8 uuid in
  let new_room := {| code := JStr welcome_code; language := room_language |} in
  add_and_commit room_id new_room;;
  refresh room_id;;
  mret room_id.

(** Two worlds that differ at most in what the sessions hold. *)
Definition same_outside_sessions (w1 w : World) : Prop :=
  active_connections w1 = active_connections w
  ∧ rooms w1 = rooms w
  ∧ calls w1 = calls w
  ∧ chan_fault w1 = chan_fault w
  ∧ db_fault w1 = db_fault w
  ∧ bind_param w1 = bind_param w.

(** The world once an exception other than a disconnect has ended the
    coroutine of [ws]. *)
Definition dropped (ws : WebSocket) (room_id : string) (w : World) : World :=
  close_session ws
    (set_connections (remove_conn ws room_id (active_connections w)) w).

(** * Properties *)

(** ** Bookkeeping on worlds *)

Lemma set_connections_same w : set_connections (active_connections w) w = w.
Proof. by destruct w. Qed.

Lemma append_calls_nil w : append_calls [] w = w.
Proof. destruct w; unfold append_calls; simpl. by rewrite app_nil_r. Qed.

Lemma append_calls_app evs1 evs2 w :
  append_calls evs2 (append_calls evs1 w) = append_calls (evs1 ++ evs2) w.
Proof. unfold append_calls; simpl. by rewrite app_assoc. Qed.

Lemma log_append e w : log e w = append_calls [e] w.
Proof. reflexivity. Qed.

Lemma set_connections_append c evs w :
  set_connections c (append_calls evs w) = append_calls evs (set_connections c w).
Proof. reflexivity. Qed.

Lemma new_events_append c evs w :
  new_events w (set_connections c (append_calls evs w)) = evs.
Proof. unfold new_events; simpl. by rewrite drop_app_length. Qed.

Lemma new_events_same w : new_events w w = [].
Proof. unfold new_events. by rewrite drop_all. Qed.

(** ** The registry as a pure map *)

Ltac unfold_m :=
  unfold mbind, M_bind, mret, M_ret, raise, try_except,
    get_connections, put_connections in *; simpl in *.

Lemma disconnect_eq ws room_id w :
  disconnect ws room_id w =
    (Ret tt, set_connections (remove_conn ws room_id (active_connections w)) w).
Proof.
  unfold disconnect, remove_conn. unfold_m.
  destruct (active_connections w !! room_id) as [l|] eqn:Hl.
  - destruct (list_remove ws l) as [l'|] eqn:Hr; simpl.
    + rewrite lookup_insert_eq.
      destruct l' as [|c l']; simpl; [|done].
      by rewrite delete_insert_eq.
    + by rewrite set_connections_same.
  - by rewrite set_connections_same.
Qed.

Lemma disconnect_each_eq ds room_id w :
  disconnect_each ds room_id w =
    (Ret tt,
     set_connections
       (foldl (λ conns d, remove_conn d room_id conns) (active_connections w) ds) w).
Proof.
  revert w. induction ds as [|d ds IH]; intros w; simpl.
  - unfold_m. by rewrite set_connections_same.
  - unfold mbind, M_bind. rewrite disconnect_eq, IH. reflexivity.
Qed.

Lemma list_remove_elem_of x l l' : list_remove x l = Some l' → x ∈ l.
Proof.
  revert l'. induction l as [|y l IH]; intros l'; simpl; [done|].
  case_decide as Hy.
  - subst. intros _. apply list_elem_of_here.
  - destruct (list_remove x l) as [l0|]; simpl; [|done].
    intros _. apply list_elem_of_further. by eapply IH.
Qed.

Lemma list_remove_middle x pre l :
  x ∉ pre → list_remove x (pre ++ x :: l) = Some (pre ++ l).
Proof.
  induction pre as [|y pre IH]; intros Hx; simpl.
  - by rewrite decide_True.
  - rewrite decide_False by (intros ->; apply Hx, list_elem_of_here).
    rewrite IH; [done|]. intros ?. apply Hx. by apply list_elem_of_further.
Qed.

Lemma list_remove_length x l l' :
  list_remove x l = Some l' → length l = S (length l').
Proof.
  revert l'. induction l as [|y l IH]; intros l'; simpl; [done|].
  case_decide.
  - by intros [= ->].
  - destruct (list_remove x l) as [l0|]; simpl; [|done].
    intros [= <-]. simpl. f_equal. by apply IH.
Qed.

Lemma remove_conn_nonempty ws room_id conns :
  entries_nonempty conns → entries_nonempty (remove_conn ws room_id conns).
Proof.
  intros Hinv r l. unfold remove_conn.
  destruct (conns !! room_id) as [l0|] eqn:Hl0; [|by apply Hinv].
  destruct (list_remove ws l0) as [[|c l1]|]; [| |by apply Hinv].
  - rewrite lookup_delete. case_decide; [done|]. by apply Hinv.
  - rewrite lookup_insert. case_decide; [by intros [= <-]|]. by apply Hinv.
Qed.

Lemma remove_conn_other ws room_id conns r :
  r ≠ room_id → remove_conn ws room_id conns !! r = conns !! r.
Proof.
  intros Hr. unfold remove_conn.
  destruct (conns !! room_id) as [l0|]; [|done].
  destruct (list_remove ws l0) as [[|c l1]|]; [| |done].
  - by rewrite lookup_delete_ne.
  - by rewrite lookup_insert_ne.
Qed.

Lemma foldl_remove_conn_nonempty ds room_id conns :
  entries_nonempty conns →
  entries_nonempty (foldl (λ conns d, remove_conn d room_id conns) conns ds).
Proof.
  revert conns. induction ds as [|d ds IH]; intros conns Hinv; simpl; [done|].
  by apply IH, remove_conn_nonempty.
Qed.

Lemma foldl_remove_conn_other ds room_id conns r :
  r ≠ room_id →
  foldl (λ conns d, remove_conn d room_id conns) conns ds !! r = conns !! r.
Proof.
  intros Hr. revert conns. induction ds as [|d ds IH]; intros conns; simpl; [done|].
  by rewrite IH, remove_conn_other.
Qed.

Lemma foldl_remove_conn_absent ds room_id conns :
  conns !! room_id = None →
  foldl (λ conns d, remove_conn d room_id conns) conns ds = conns.
Proof.
  intros Hn. induction ds as [|d ds IH]; simpl; [done|].
  unfold remove_conn at 2. by rewrite Hn.
Qed.

(** Removing, one after the other, the members of [l] that satisfy [P]
    leaves the members that do not, in their order. *)
Section prune.
Context (P : WebSocket → Prop) `{!∀ c, Decision (P c)}.

Lemma prune_members room_id conns pre l :
  conns !! room_id = Some (pre ++ l) →
  Forall (λ c, ¬ P c) pre →
  default []
    (foldl (λ conns d, remove_conn d room_id conns) conns (filter P l) !! room_id)
  = pre ++ filter (λ c, ¬ P c) l.
Proof.
    revert pre conns. induction l as [|x l IH]; intros pre conns Hl Hpre.
    - simpl. by rewrite Hl.
    - destruct (decide (P x)) as [HP|HP].
      + rewrite filter_cons_True by done.
        rewrite (filter_cons_False (λ c, ¬ P c)) by tauto.
        simpl. unfold remove_conn at 2. rewrite Hl.
        rewrite list_remove_middle.
        2:{ intros Hin. by eapply (proj1 (Forall_forall _ _) Hpre). }
        destruct (pre ++ l) as [|c l1] eqn:Hpl.
        * apply app_eq_nil in Hpl as [-> ->]. simpl.
          by rewrite lookup_delete_eq.
        * rewrite <- Hpl. apply IH; [|done]. by rewrite lookup_insert_eq.
      + rewrite filter_cons_False by done.
        rewrite (filter_cons_True (λ c, ¬ P c)) by done.
        rewrite (cons_middle x pre), app_assoc.
        apply IH.
        * by rewrite <- app_assoc.
        * apply Forall_app. split; [done|]. by apply Forall_singleton.
Qed.

End prune.

(** ** The two broadcasts *)

Lemma send_json_eq c message w :
  send_json c message w =
    (match chan_fault w c OpSend with Some e => Raise e | None => Ret tt end,
     append_calls [send_event w message c] w).
Proof.
  unfold send_json, send_event.
  destruct (decide (accepts w c)) as [Ha|Ha]; unfold accepts in Ha.
  - by rewrite Ha.
  - by destruct (chan_fault w c OpSend).
Qed.

Lemma broadcast_sends_eq message sender l d w :
  broadcast_sends message sender l d w =
    (Ret (d ++ filter (failed_on w sender) l),
     append_calls (map (send_event w message) (filter (λ c, Some c ≠ sender) l)) w).
Proof.
  revert d w. induction l as [|c l IH]; intros d w; simpl.
  - unfold_m. by rewrite app_nil_r, append_calls_nil.
  - unfold mbind, M_bind. destruct (decide (Some c ≠ sender)) as [Hc|Hc].
    + rewrite (filter_cons_True (λ c, Some c ≠ sender)) by done.
      unfold try_except, mbind, M_bind. rewrite send_json_eq.
      destruct (chan_fault w c OpSend) as [e|] eqn:He.
      * unfold mret, M_ret. rewrite IH, append_calls_app.
        rewrite (filter_cons_True (failed_on w sender)).
        2:{ split; [done|]. unfold accepts. by rewrite He. }
        by rewrite <- app_assoc.
      * unfold mret, M_ret. rewrite IH, append_calls_app.
        rewrite (filter_cons_False (failed_on w sender)).
        2:{ intros [_ Hf]. by apply Hf. }
        done.
    + rewrite (filter_cons_False (λ c, Some c ≠ sender)) by done.
      rewrite (filter_cons_False (failed_on w sender)) by (intros [? _]; done).
      unfold mret, M_ret. by rewrite IH.
Qed.

Lemma broadcast_to_all_sends_eq message l d w :
  broadcast_to_all_sends message l d w = broadcast_sends message None l d w.
Proof.
  revert d w. induction l as [|c l IH]; intros d w; simpl; [done|].
  unfold mbind, M_bind.
  destruct (try_except _ _ w) as [[d'|e] w']; [apply IH|done].
Qed.

Lemma broadcast_to_all_eq room_id message w :
  broadcast_to_all room_id message w = broadcast room_id message None w.
Proof.
  unfold broadcast_to_all, broadcast, mbind, M_bind, get_connections.
  destruct (active_connections w !! room_id) as [l|]; [|done].
  by rewrite broadcast_to_all_sends_eq.
Qed.

Lemma broadcast_eq room_id message sender w l :
  active_connections w !! room_id = Some l →
  broadcast room_id message sender w =
    (Ret tt,
     set_connections (pruned w room_id sender l)
                     (append_calls (fan_out w message sender l) w)).
Proof.
  intros Hl. unfold broadcast, mbind, M_bind, get_connections. rewrite Hl.
  rewrite broadcast_sends_eq, disconnect_each_eq. reflexivity.
Qed.

Lemma broadcast_absent room_id message sender w :
  active_connections w !! room_id = None →
  broadcast room_id message sender w = (Ret tt, w).
Proof.
  intros Hl. unfold broadcast, mbind, M_bind, get_connections. by rewrite Hl.
Qed.

Lemma pruned_members w room_id sender l :
  active_connections w !! room_id = Some l →
  default [] (pruned w room_id sender l !! room_id)
  = filter (λ c, ¬ failed_on w sender c) l.
Proof.
  intros Hl. unfold pruned.
  by rewrite (prune_members (failed_on w sender) room_id _ [] l).
Qed.

Lemma pruned_other w room_id sender l r :
  r ≠ room_id → pruned w room_id sender l !! r = active_connections w !! r.
Proof. intros Hr. unfold pruned. by rewrite foldl_remove_conn_other. Qed.

Lemma pruned_nonempty w room_id sender l :
  entries_nonempty (active_connections w) →
  entries_nonempty (pruned w room_id sender l).
Proof. apply foldl_remove_conn_nonempty. Qed.

Lemma inbox_app ws evs1 evs2 :
  inbox ws (evs1 ++ evs2) = inbox ws evs1 ++ inbox ws evs2.
Proof.
  induction evs1 as [|e evs1 IH]; simpl; [done|].
  destruct e; try done. case_decide; simpl; by rewrite IH.
Qed.

Lemma elem_of_inbox_fan_out w message sender l c x :
  x ∈ inbox c (fan_out w message sender l)
  ↔ x = message ∧ c ∈ l ∧ Some c ≠ sender ∧ accepts w c.
Proof.
  unfold fan_out. induction l as [|d l IH].
  - rewrite filter_nil. simpl. split; [by intros ?%elem_of_nil|].
    by intros (_ & ?%elem_of_nil & _).
  - rewrite filter_cons. destruct (decide (Some d ≠ sender)) as [Hd|Hd]; simpl.
    + unfold send_event at 1. destruct (decide (accepts w d)) as [Ha|Ha].
      * case_decide as Hdc; [subst d|].
        -- rewrite elem_of_cons, IH, elem_of_cons. naive_solver.
        -- rewrite IH, elem_of_cons. naive_solver.
      * rewrite IH, elem_of_cons. naive_solver.
    + rewrite IH, elem_of_cons. naive_solver.
Qed.

Lemma inbox_fan_out_nil w message sender l c :
  Some c = sender ∨ ¬ accepts w c ∨ c ∉ l →
  inbox c (fan_out w message sender l) = [].
Proof.
  intros Hc. destruct (inbox c (fan_out w message sender l)) as [|x xs] eqn:Hi; [done|].
  assert (x ∈ inbox c (fan_out w message sender l)) as Hx
    by (rewrite Hi; apply list_elem_of_here).
  apply elem_of_inbox_fan_out in Hx as (_ & ? & ? & ?). naive_solver.
Qed.

Lemma elem_of_fan_out w message sender l e :
  e ∈ fan_out w message sender l
  ↔ ∃ c, e = send_event w message c ∧ c ∈ l ∧ Some c ≠ sender.
Proof.
  unfold fan_out. rewrite list_elem_of_fmap.
  split.
  - intros (c & -> & Hc). apply list_elem_of_filter in Hc as [? ?]. eauto.
  - intros (c & -> & ? & ?). exists c. split; [done|]. by apply list_elem_of_filter.
Qed.

(** A broadcast never raises; this is its whole effect. *)
Lemma broadcast_effect room_id message sender w l :
  active_connections w !! room_id = Some l →
  ∃ w', broadcast room_id message sender w = (Ret tt, w')
        ∧ new_events w w' = fan_out w message sender l
        ∧ members room_id w' = filter (λ c, ¬ failed_on w sender c) l
        ∧ (∀ r, r ≠ room_id → active_connections w' !! r = active_connections w !! r)
        ∧ rooms w' = rooms w
        ∧ chan_fault w' = chan_fault w
        ∧ db_fault w' = db_fault w.
Proof.
  intros Hl. eexists. split; [by apply broadcast_eq|].
  split; [apply new_events_append|].
  split; [by apply pruned_members|].
  split; [intros r Hr; by apply pruned_other|done].
Qed.

(** C1. In a room that has an entry in the registry, [broadcast] with a
    sender calls [send_json message] on every member other than the sender,
    every such member whose socket takes the send receives [message], and
    nothing at all is sent to the sender; [broadcast_to_all] calls
    [send_json message] on every member and every member whose socket takes
    the send receives [message], the sender included.  Neither call
    raises. *)
Theorem broadcast_skips_sender_broadcast_to_all_does_not
    w room_id l message sender :
  active_connections w !! room_id = Some l →
  ∃ w1 w2,
    broadcast room_id message (Some sender) w = (Ret tt, w1)
    ∧ broadcast_to_all room_id message w = (Ret tt, w2)
    ∧ (∀ c, c ∈ l → c ≠ sender →
         send_event w message c ∈ new_events w w1
         ∧ (accepts w c → message ∈ inbox c (new_events w w1)))
    ∧ inbox sender (new_events w w1) = []
    ∧ (∀ m, (EvSend sender m ∉ new_events w w1)
            ∧ (EvSendFailed sender m ∉ new_events w w1))
    ∧ (∀ c, c ∈ l →
         send_event w message c ∈ new_events w w2
         ∧ (accepts w c → message ∈ inbox c (new_events w w2))).
Proof.
  intros Hl.
  destruct (broadcast_effect room_id message (Some sender) w l Hl)
    as (w1 & Hb1 & Hev1 & _).
  destruct (broadcast_effect room_id message None w l Hl)
    as (w2 & Hb2 & Hev2 & _).
  exists w1, w2. rewrite broadcast_to_all_eq, Hev1, Hev2.
  repeat split; try done.
  - apply elem_of_fan_out. exists c. by repeat split; [|congruence].
  - intros Ha. apply elem_of_inbox_fan_out. by repeat split; [|congruence|].
  - apply inbox_fan_out_nil. by left.
  - intros (c & Hc & _ & Hne)%elem_of_fan_out.
    unfold send_event in Hc. case_decide; [|done]. by injection Hc as -> _.
  - intros (c & Hc & _ & Hne)%elem_of_fan_out.
    unfold send_event in Hc. case_decide; [done|]. by injection Hc as -> _.
  - apply elem_of_fan_out. by exists c.
  - intros Ha. by apply elem_of_inbox_fan_out.
Qed.

Lemma broadcast_skips_sender_broadcast_to_all_does_not_witness :
  ∃ w1 w2,
    broadcast "abc12345" (user_count_message 3) (Some 1) world_three = (Ret tt, w1)
    ∧ broadcast_to_all "abc12345" (user_count_message 3) world_three = (Ret tt, w2)
    ∧ (∀ c, c ∈ [1; 2; 3] → c ≠ 1 →
         send_event world_three (user_count_message 3) c ∈ new_events world_three w1
         ∧ (accepts world_three c →
            user_count_message 3 ∈ inbox c (new_events world_three w1)))
    ∧ inbox 1 (new_events world_three w1) = []
    ∧ (∀ m, (EvSend 1 m ∉ new_events world_three w1)
            ∧ (EvSendFailed 1 m ∉ new_events world_three w1))
    ∧ (∀ c, c ∈ [1; 2; 3] →
         send_event world_three (user_count_message 3) c ∈ new_events world_three w2
         ∧ (accepts world_three c →
            user_count_message 3 ∈ inbox c (new_events world_three w2))).
Proof.
  apply (broadcast_skips_sender_broadcast_to_all_does_not
           world_three "abc12345" [1; 2; 3] (user_count_message 3) 1).
  vm_compute. reflexivity.
Defined.

(** C3. If [send_json message] raises on a member [c] during either
    broadcast, the call still returns normally, [c] gets nothing, [c] is no
    longer a member of the room when the call returns, and every other
    member whose socket takes the send, wherever it stands in the list,
    receives [message] and stays a member. *)
Theorem failed_send_is_caught_and_evicts w room_id l message sender c :
  active_connections w !! room_id = Some l →
  c ∈ l →
  ¬ accepts w c →
  ∃ w1 w2,
    broadcast room_id message sender w = (Ret tt, w1)
    ∧ broadcast_to_all room_id message w = (Ret tt, w2)
    ∧ (Some c ≠ sender →
         EvSendFailed c message ∈ new_events w w1 ∧ (c ∉ members room_id w1))
    ∧ EvSendFailed c message ∈ new_events w w2
    ∧ (c ∉ members room_id w2)
    ∧ inbox c (new_events w w1) = []
    ∧ inbox c (new_events w w2) = []
    ∧ (∀ d, d ∈ l → Some d ≠ sender → accepts w d →
         message ∈ inbox d (new_events w w1) ∧ d ∈ members room_id w1)
    ∧ (∀ d, d ∈ l → accepts w d →
         message ∈ inbox d (new_events w w2) ∧ d ∈ members room_id w2).
Proof.
  intros Hl Hc Hdead.
  destruct (broadcast_effect room_id message sender w l Hl)
    as (w1 & Hb1 & Hev1 & Hm1 & _).
  destruct (broadcast_effect room_id message None w l Hl)
    as (w2 & Hb2 & Hev2 & Hm2 & _).
  exists w1, w2. rewrite broadcast_to_all_eq, Hev1, Hev2, Hm1, Hm2.
  assert (send_event w message c = EvSendFailed c message) as Hse
    by (unfold send_event; by rewrite decide_False).
  repeat split; try done.
  - rewrite <- Hse. apply elem_of_fan_out. by exists c.
  - intros [Hf _]%list_elem_of_filter. apply Hf. by split.
  - rewrite <- Hse. apply elem_of_fan_out. by exists c.
  - intros [Hf _]%list_elem_of_filter. apply Hf. by split.
  - apply inbox_fan_out_nil. by right; left.
  - apply inbox_fan_out_nil. by right; left.
  - by apply elem_of_inbox_fan_out.
  - apply list_elem_of_filter. split; [|done]. by intros [_ ?].
  - by apply elem_of_inbox_fan_out.
  - apply list_elem_of_filter. split; [|done]. by intros [_ ?].
Qed.

Lemma failed_send_is_caught_and_evicts_witness :
  ∃ w1 w2,
    broadcast "abc12345" (user_count_message 3) (Some 1) world_three = (Ret tt, w1)
    ∧ broadcast_to_all "abc12345" (user_count_message 3) world_three = (Ret tt, w2)
    ∧ (Some 2 ≠ Some 1 →
         EvSendFailed 2 (user_count_message 3) ∈ new_events world_three w1
         ∧ (2 ∉ members "abc12345" w1))
    ∧ EvSendFailed 2 (user_count_message 3) ∈ new_events world_three w2
    ∧ (2 ∉ members "abc12345" w2)
    ∧ inbox 2 (new_events world_three w1) = []
    ∧ inbox 2 (new_events world_three w2) = []
    ∧ (∀ d, d ∈ [1; 2; 3] → Some d ≠ Some 1 → accepts world_three d →
         user_count_message 3 ∈ inbox d (new_events world_three w1)
         ∧ d ∈ members "abc12345" w1)
    ∧ (∀ d, d ∈ [1; 2; 3] → accepts world_three d →
         user_count_message 3 ∈ inbox d (new_events world_three w2)
         ∧ d ∈ members "abc12345" w2).
Proof.
  apply (failed_send_is_caught_and_evicts
           world_three "abc12345" [1; 2; 3] (user_count_message 3) (Some 1) 2).
  - vm_compute. reflexivity.
  - apply list_elem_of_further, list_elem_of_here.
  - vm_compute. discriminate.
Defined.

(** ** The registry invariant *)

Lemma same_connections_keeps {A} (m : M A) : same_connections m → keeps_nonempty m.
Proof. intros Hm w Hw. by rewrite Hm. Qed.

Lemma keeps_ret {A} (a : A) : keeps_nonempty (mret a).
Proof. by intros w Hw. Qed.

Lemma keeps_raise {A} e : keeps_nonempty (@raise A e).
Proof. by intros w Hw. Qed.

Lemma keeps_bind {A B} (m : M A) (f : A → M B) :
  keeps_nonempty m → (∀ a, keeps_nonempty (f a)) → keeps_nonempty (m ≫= f).
Proof.
  intros Hm Hf w Hw. specialize (Hm w Hw). unfold run, mbind, M_bind in *.
  destruct (m w) as [[a|e] w']; simpl in *; [by apply Hf|done].
Qed.

Lemma keeps_try_except {A} (body : M A) handler :
  keeps_nonempty body →
  (∀ e h, handler e = Some h → keeps_nonempty h) →
  keeps_nonempty (try_except body handler).
Proof.
  intros Hb Hh w Hw. specialize (Hb w Hw). unfold run, try_except in *.
  destruct (body w) as [[a|e] w']; simpl in *; [done|].
  destruct (handler e) as [h|] eqn:He; [|done]. by eapply Hh.
Qed.

Lemma keeps_accept ws : keeps_nonempty (accept ws).
Proof.
  apply same_connections_keeps. intros w. unfold run, accept.
  by destruct (chan_fault w ws OpAccept).
Qed.

Lemma keeps_send_json ws message : keeps_nonempty (send_json ws message).
Proof.
  apply same_connections_keeps. intros w. unfold run, send_json.
  by destruct (chan_fault w ws OpSend).
Qed.

Lemma keeps_close ws close_code reason : keeps_nonempty (close ws close_code reason).
Proof.
  apply same_connections_keeps. intros w. unfold run, close.
  by destruct (chan_fault w ws OpClose).
Qed.

Lemma same_connections_get_room db room_id : same_connections (get_room db room_id).
Proof.
  intros w. unfold run, get_room.
  destruct (db_fault w OpQuery); [done|].
  destruct (rooms w !! room_id); [|done].
  destruct (identity_map db w !! room_id) as [[?|]|]; by destruct db.
Qed.

Lemma same_connections_commit_code db room_id room new_code :
  same_connections (commit_code db room_id room new_code).
Proof.
  intros w. unfold run, commit_code.
  destruct (db_fault w OpCommit); [done|].
  destruct (same_as_loaded new_code (code room)); [by destruct db|].
  destruct (column_value w new_code); by destruct db.
Qed.

Lemma keeps_get_room db room_id : keeps_nonempty (get_room db room_id).
Proof. apply same_connections_keeps, same_connections_get_room. Qed.

Lemma keeps_commit_code db room_id room new_code :
  keeps_nonempty (commit_code db room_id room new_code).
Proof. apply same_connections_keeps, same_connections_commit_code. Qed.

Lemma keeps_py_get message key dflt : keeps_nonempty (py_get message key dflt).
Proof. destruct message; by intros w Hw. Qed.

Lemma keeps_py_len v : keeps_nonempty (py_len v).
Proof. destruct v; by intros w Hw. Qed.

Lemma keeps_get_room_user_count room_id : keeps_nonempty (get_room_user_count room_id).
Proof. by intros w Hw. Qed.

Lemma keeps_connect ws room_id : keeps_nonempty (connect ws room_id).
Proof.
  intros w Hw. unfold run, connect, accept. unfold_m.
  destruct (chan_fault w ws OpAccept); simpl; [done|].
  destruct (decide (active_connections w !! room_id = None)) as [Hn|Hn]; simpl.
  - rewrite lookup_insert_eq. simpl. intros r l.
    rewrite lookup_insert. case_decide; [by intros [= <-]|].
    rewrite lookup_insert_ne by done. apply Hw.
  - destruct (active_connections w !! room_id) as [l0|] eqn:Hl0; [|done]. simpl.
    intros r l. rewrite lookup_insert. case_decide; [|apply Hw].
    intros [= <-]. by destruct l0.
Qed.

Lemma keeps_disconnect ws room_id : keeps_nonempty (disconnect ws room_id).
Proof.
  intros w Hw. unfold run. rewrite disconnect_eq. simpl.
  by apply remove_conn_nonempty.
Qed.

Lemma keeps_broadcast room_id message sender :
  keeps_nonempty (broadcast room_id message sender).
Proof.
  intros w Hw. unfold run.
  destruct (active_connections w !! room_id) as [l|] eqn:Hl.
  - rewrite (broadcast_eq _ _ _ _ l) by done. simpl. by apply pruned_nonempty.
  - by rewrite broadcast_absent.
Qed.

Lemma keeps_broadcast_to_all room_id message :
  keeps_nonempty (broadcast_to_all room_id message).
Proof.
  intros w Hw. unfold run. rewrite broadcast_to_all_eq. by apply keeps_broadcast.
Qed.

Create HintDb keeps discriminated.

#[local] Hint Resolve keeps_ret keeps_raise keeps_accept keeps_send_json
  keeps_close keeps_get_room keeps_commit_code keeps_py_get keeps_py_len
  keeps_get_room_user_count keeps_connect keeps_disconnect keeps_broadcast
  keeps_broadcast_to_all : keeps.

(** Walks through a computation built from the calls above. *)
Ltac keeps :=
  repeat first
    [ solve [auto with keeps]
    | apply keeps_bind; [|intros ?; cbv beta]
    | match goal with
      | |- keeps_nonempty (match ?x with _ => _ end) => destruct x
      end ].

Lemma keeps_update_room_code db room_id new_code :
  keeps_nonempty (update_room_code db room_id new_code).
Proof. unfold update_room_code. keeps. Qed.

Lemma keeps_join ws room_id : keeps_nonempty (join ws room_id).
Proof. unfold join. keeps. Qed.

#[local] Hint Resolve keeps_update_room_code keeps_join : keeps.

Lemma keeps_handle_message ws room_id message :
  keeps_nonempty (handle_message ws room_id message).
Proof. unfold handle_message. keeps. Qed.

#[local] Hint Resolve keeps_handle_message : keeps.

Lemma keeps_message_loop ws room_id inputs :
  keeps_nonempty (message_loop ws room_id inputs).
Proof.
  induction inputs as [|i inputs IH]; [by intros w Hw|].
  change (keeps_nonempty
            (message ← receive_and_load i;
             handle_message ws room_id message;;
             message_loop ws room_id inputs)).
  apply keeps_bind; [destruct i; by intros w Hw|intros message].
  apply keeps_bind; [auto with keeps|intros _; exact IH].
Qed.

Lemma keeps_on_exception ws room_id e h :
  on_exception ws room_id e = Some h → keeps_nonempty h.
Proof. destruct e; intros [= <-]; keeps. Qed.

Lemma finally_close_connections ws (body : M status) w :
  active_connections (run (finally_close ws body) w) = active_connections (run body w).
Proof.
  unfold run, finally_close, closing. by destruct (body w) as [[[|]|e] w'].
Qed.

Lemma keeps_finally_close ws (body : M status) :
  keeps_nonempty body → keeps_nonempty (finally_close ws body).
Proof. intros Hb w Hw. rewrite finally_close_connections. by apply Hb. Qed.

Lemma keeps_open_session ws : keeps_nonempty (open_session ws).
Proof. by intros w Hw. Qed.

Lemma keeps_websocket_endpoint ws room_id inputs :
  keeps_nonempty (websocket_endpoint ws room_id inputs).
Proof.
  apply keeps_bind; [apply keeps_open_session|intros _].
  apply keeps_finally_close.
  apply keeps_try_except; [|apply keeps_on_exception].
  apply keeps_bind; [keeps|]. intros [|]; [apply keeps_message_loop|keeps].
Qed.

Lemma keeps_resume ws room_id inputs :
  keeps_nonempty (resume ws room_id inputs).
Proof.
  apply keeps_finally_close.
  apply keeps_try_except; [apply keeps_message_loop|apply keeps_on_exception].
Qed.

Lemma manager_step_nonempty w w' :
  manager_step w w' →
  entries_nonempty (active_connections w) →
  entries_nonempty (active_connections w').
Proof.
  destruct 1 as [ws r w|ws r w|r m s w|r m w|ws r i w|ws r i w|w w' Hsame].
  - apply keeps_connect.
  - apply keeps_disconnect.
  - apply keeps_broadcast.
  - apply keeps_broadcast_to_all.
  - apply keeps_websocket_endpoint.
  - apply keeps_resume.
  - by rewrite Hsame.
Qed.

Lemma reachable_nonempty w : reachable w → entries_nonempty (active_connections w).
Proof.
  intros (w0 & Hempty & Hsteps).
  assert (entries_nonempty (active_connections w0)) as H0.
  { intros r l. by rewrite Hempty, lookup_empty. }
  clear Hempty. revert H0.
  induction Hsteps as [|x y z Hxy _ IH]; intros H0; [done|].
  apply IH. by eapply manager_step_nonempty.
Qed.

(** C2. In every world the process can reach, a room has an entry in the
    manager's dictionary exactly when it has at least one connection;
    removing the only connection of a room deletes the entry in that very
    call; and [get_room_user_count] returns the length of the room's
    list, which is 0 for a room without entry. *)
Theorem registry_entry_iff_member_and_count w room_id :
  reachable w →
  (is_Some (active_connections w !! room_id) ↔ ∃ c, c ∈ members room_id w)
  ∧ (∀ ws, members room_id w = [ws] →
       disconnect ws room_id w
       = (Ret tt, set_connections (delete room_id (active_connections w)) w))
  ∧ get_room_user_count room_id w = (Ret (length (members room_id w)), w)
  ∧ (active_connections w !! room_id = None →
       get_room_user_count room_id w = (Ret 0, w)).
Proof.
  intros Hw%reachable_nonempty. unfold members. repeat split.
  - intros [l Hl]. rewrite Hl. simpl. specialize (Hw _ _ Hl).
    destruct l as [|c l]; [done|]. exists c. apply list_elem_of_here.
  - intros [c Hc]. destruct (active_connections w !! room_id); [done|].
    by apply elem_of_nil in Hc.
  - intros ws Hm. rewrite disconnect_eq. unfold remove_conn.
    destruct (active_connections w !! room_id) as [l|]; simpl in Hm; [|done].
    subst l. simpl. by rewrite decide_True.
  - intros Hn. unfold get_room_user_count. unfold_m. by rewrite Hn.
Qed.

Lemma registry_entry_iff_member_and_count_witness :
  let w := run (websocket_endpoint 1 "abc12345" []) world0 in
  (is_Some (active_connections w !! "abc12345") ↔ ∃ c, c ∈ members "abc12345" w)
  ∧ (∀ ws, members "abc12345" w = [ws] →
       disconnect ws "abc12345" w
       = (Ret tt, set_connections (delete "abc12345" (active_connections w)) w))
  ∧ get_room_user_count "abc12345" w = (Ret (length (members "abc12345" w)), w)
  ∧ (active_connections w !! "abc12345" = None →
       get_room_user_count "abc12345" w = (Ret 0, w)).
Proof.
  intros w.
  apply (registry_entry_iff_member_and_count w "abc12345").
  exists world0. split; [reflexivity|].
  eapply rtc_l; [apply step_endpoint|apply rtc_refl].
Defined.

(** ** Rejected admission *)

(** C4, as the claim words the reason, fails: nobody is connected, the
    table has no row "nope", nothing is at fault, and the close that goes
    out does not carry the reason "room not found". *)
Lemma rejection_reason_is_not_lower_case :
  rooms world0 !! "nope" = None
  ∧ db_fault world0 OpQuery = false
  ∧ chan_fault world0 7 OpClose = None
  ∧ ¬ rejected_with "room not found" 7 "nope" [] world0.
Proof.
  repeat split.
  intros (w' & Hrun & Hev & _).
  vm_compute in Hrun. injection Hrun as <-.
  vm_compute in Hev. discriminate Hev.
Qed.

(** C4, amended. When the table has no row for the room id, the endpoint
    closes the socket with code 4004 and reason "Room not found" and
    returns; the socket is not admitted, no entry is created, and the
    manager's dictionary is what it was. *)
Theorem absent_room_is_rejected_with_4004 w ws room_id inputs :
  db_fault w OpQuery = false →
  rooms w !! room_id = None →
  chan_fault w ws OpClose = None →
  rejected_with "Room not found" ws room_id inputs w.
Proof.
  intros Hdb Hroom Hclose.
  exists (close_session ws
            (log (EvClose ws 4004 "Room not found")
                 (set_sessions (delete ws (sessions w)) w))).
  split; [|split; [|done]].
  - unfold websocket_endpoint, open_session, finally_close, try_except,
      join, get_room, close, mbind, M_bind, mret, M_ret.
    simpl. rewrite Hdb, Hroom. simpl. by rewrite Hclose.
  - unfold new_events. simpl. by rewrite drop_app_length.
Qed.

Lemma absent_room_is_rejected_with_4004_witness :
  rejected_with "Room not found" 7 "nope" [Disconnect] world0.
Proof.
  apply (absent_room_is_rejected_with_4004 world0 7 "nope" [Disconnect]);
    reflexivity.
Defined.

(** ** Frames the loop does not act on *)

Lemma handler_result (h : M unit) (w w1 : World) :
  h w = (Ret tt, w1) → (h;; mret Closed) w = (Ret Closed, w1).
Proof. intros Hh. unfold mbind, M_bind. by rewrite Hh. Qed.

(** The clause [except Exception] on anything but a disconnect. *)
Lemma on_exception_unexpected ws room_id e w :
  e ≠ WebSocketDisconnect →
  ∃ h, on_exception ws room_id e = Some h
       ∧ h w = (Ret Closed,
                set_connections (remove_conn ws room_id (active_connections w)) w).
Proof.
  intros He.
  exists (disconnect ws room_id;; mret Closed). split.
  - by destruct e.
  - apply handler_result, disconnect_eq.
Qed.

(** One turn of the loop, seen from outside the [try]. *)
Lemma resume_one ws room_id i w :
  resume ws room_id [i] w =
    match (message ← receive_and_load i; handle_message ws room_id message) w with
    | (Ret _, w') => (Ret Streaming, w')
    | (Raise e, w') =>
        match on_exception ws room_id e with
        | Some h => closing ws (h w')
        | None => (Raise e, close_session ws w')
        end
    end.
Proof.
  unfold resume, finally_close, try_except, message_loop, mbind, M_bind.
  destruct (receive_and_load i w) as [[message|e] w1].
  - by destruct (handle_message ws room_id message w1) as [[[]|e] w2];
      [|destruct (on_exception ws room_id e)].
  - by destruct (on_exception ws room_id e).
Qed.

Lemma raised_in_loop ws room_id i e w w1 :
  e ≠ WebSocketDisconnect →
  (message ← receive_and_load i; handle_message ws room_id message) w = (Raise e, w1) →
  resume ws room_id [i] w = (Ret Closed, dropped ws room_id w1).
Proof.
  intros He Hraise. rewrite resume_one, Hraise.
  destruct (on_exception_unexpected ws room_id e w1 He) as (h & -> & ->). done.
Qed.

Lemma malformed_raises ws room_id i w :
  malformed i →
  ∃ e, e ≠ WebSocketDisconnect
       ∧ (message ← receive_and_load i; handle_message ws room_id message) w
         = (Raise e, w).
Proof.
  destruct i as [m|data| |e]; simpl; try done.
  - destruct m; try done; intros _; by exists AttributeError.
  - intros _. by exists JSONDecodeError.
Qed.

(** C5, as stated, fails: client 1 is in the loop, a frame that is not
    JSON arrives, and the coroutine returns with client 1 taken out of
    the room. *)
Lemma bad_json_is_not_ignored :
  malformed (BadFrame "{not json")
  ∧ ¬ ignored 1 "abc12345" (BadFrame "{not json") world_two
  ∧ ∃ w', resume 1 "abc12345" [BadFrame "{not json"] world_two = (Ret Closed, w')
          ∧ members "abc12345" world_two = [1; 2]
          ∧ members "abc12345" w' = [2].
Proof.
  split; [done|]. split.
  - unfold ignored. vm_compute. discriminate.
  - eexists. split; [vm_compute; reflexivity|]. split; vm_compute; reflexivity.
Qed.

(** C5, amended. A frame that decodes to a JSON object whose [type] is
    missing or is none of [code_update], [cursor_move], [code_output] is
    ignored: the world is exactly what it was and the coroutine stays in
    the loop.  A frame that is not JSON, or that decodes to something
    other than an object, raises in the loop; the outermost handler takes
    the socket out of the registry and the coroutine returns. *)
Theorem unknown_type_is_ignored_malformed_ends_the_loop ws room_id w :
  (∀ fields, recognized (message_type_of fields) = false →
     ignored ws room_id (Frame (JObj fields)) w)
  ∧ (∀ i, malformed i →
       ∃ w', resume ws room_id [i] w = (Ret Closed, w')
             ∧ active_connections w' = remove_conn ws room_id (active_connections w)).
Proof.
  split.
  - intros fields Hrec. unfold recognized, message_type_of in Hrec.
    apply orb_false_elim in Hrec as [[H1 H2]%orb_false_elim H3].
    unfold ignored. rewrite resume_one.
    unfold handle_message, receive_and_load, py_get, mbind, M_bind, mret, M_ret.
    cbv beta iota. by rewrite H1, H2, H3.
  - intros i Hi.
    destruct (malformed_raises ws room_id i w Hi) as (e & He & Hraise).
    eexists. split; [by eapply raised_in_loop|done].
Qed.

Lemma unknown_type_is_ignored_malformed_ends_the_loop_witness :
  ignored 1 "abc12345" (Frame (JObj [("type", JStr "ping")])) world_two
  ∧ ∃ w', resume 1 "abc12345" [Frame (JArr [JNum 1])] world_two = (Ret Closed, w')
          ∧ active_connections w'
            = remove_conn 1 "abc12345" (active_connections world_two).
Proof.
  split.
  - apply (proj1 (unknown_type_is_ignored_malformed_ends_the_loop
                    1 "abc12345" world_two)).
    reflexivity.
  - apply (proj2 (unknown_type_is_ignored_malformed_ends_the_loop
                    1 "abc12345" world_two)).
    exact I.
Defined.

(** ** Leaving the loop *)

(** What the clause [except WebSocketDisconnect] does. *)
Lemma resume_disconnect ws room_id w :
  resume ws room_id [Disconnect] w =
    closing ws
      ((disconnect ws room_id;;
        user_count ← get_room_user_count room_id;
        broadcast_to_all room_id (user_count_message user_count);;
        mret Closed) w).
Proof. by rewrite resume_one. Qed.

(** What the clause [except Exception] does when the read fails. *)
Lemma resume_receive_error ws room_id e w :
  e ≠ WebSocketDisconnect →
  resume ws room_id [ReceiveError e] w = (Ret Closed, dropped ws room_id w).
Proof. intros He. by apply (raised_in_loop ws room_id (ReceiveError e) e). Qed.

(** C6. Clients 1 and 2 are in the room.  When client 1's read raises
    [WebSocketDisconnect], client 1 is removed and client 2 is sent
    [user_count] with count 1.  When client 1's read raises anything
    else, client 1 is removed as well, but nothing is sent to anybody:
    client 2 is never told that the count went down to 1. *)
Theorem unexpected_exception_sends_no_user_count :
  (∃ w', resume 1 "abc12345" [Disconnect] world_two = (Ret Closed, w')
         ∧ members "abc12345" w' = [2]
         ∧ new_events world_two w' = [EvSend 2 (user_count_message 1)])
  ∧ (∃ w', resume 1 "abc12345" [ReceiveError RuntimeError] world_two = (Ret Closed, w')
           ∧ members "abc12345" w' = [2]
           ∧ new_events world_two w' = []).
Proof.
  split; eexists; (split; [vm_compute; reflexivity|]); split; vm_compute; reflexivity.
Qed.

(** ** The room store *)

Lemma update_room_code_missing db room_id new_code w :
  db_fault w OpQuery = false →
  rooms w !! room_id = None →
  update_room_code db room_id new_code w = (Ret false, w).
Proof.
  intros Hq Hr. unfold update_room_code, get_room, mbind, M_bind.
  by rewrite Hq, Hr.
Qed.

Lemma set_identity_map_same_outside db held w :
  same_outside_sessions (set_identity_map db held w) w.
Proof. by destruct db. Qed.

Lemma get_room_same_outside db room_id w r w1 :
  get_room db room_id w = (r, w1) → same_outside_sessions w1 w.
Proof.
  unfold get_room. destruct (db_fault w OpQuery); [by intros [= _ <-]|].
  destruct (rooms w !! room_id); [|by intros [= _ <-]].
  destruct (identity_map db w !! room_id) as [[?|]|]; intros [= _ <-];
    by try apply set_identity_map_same_outside.
Qed.

(** An exception from [update_room_code] is a [SQLAlchemyError] and has
    changed nothing but, possibly, what the session holds. *)
Lemma update_room_code_raise_inv db room_id new_code w e w1 :
  update_room_code db room_id new_code w = (Raise e, w1) →
  e = SQLAlchemyError ∧ same_outside_sessions w1 w.
Proof.
  unfold update_room_code, mbind, M_bind.
  destruct (get_room db room_id w) as [[[room|]|e'] w0] eqn:Hget.
  - pose proof (get_room_same_outside _ _ _ _ _ Hget) as Hsame.
    unfold commit_code.
    destruct (db_fault w0 OpCommit) eqn:Hc; [by intros [= <- <-]|].
    destruct (same_as_loaded new_code (code room)); [done|].
      destruct (column_value w0 new_code); [done|]. by intros [= <- <-].
  - done.
  - intros [= <- <-]. split; [|by eapply get_room_same_outside].
    unfold get_room in Hget. destruct (db_fault w OpQuery); [by injection Hget|].
    destruct (rooms w !! room_id); [|done].
    by destruct (identity_map db w !! room_id) as [[?|]|].
Qed.

Lemma handle_code_update ws room_id fields w :
  str_eq (message_type_of fields) "code_update" = true →
  handle_message ws room_id (JObj fields) w =
    (update_room_code (SessionOf ws) room_id (code_of fields);;
     broadcast room_id
       (code_update_message (code_of fields) (cursor_position_of fields)) (Some ws);;
     py_len (code_of fields);;
     mret tt) w.
Proof.
  intros Ht. unfold message_type_of in Ht.
  unfold handle_message, py_get.
  unfold mbind at 1, M_bind at 1, mret at 1, M_ret at 1. cbv beta iota.
  by rewrite Ht.
Qed.

Lemma resume_frame ws room_id message w :
  resume ws room_id [Frame message] w =
    match handle_message ws room_id message w with
    | (Ret _, w') => (Ret Streaming, w')
    | (Raise e, w') =>
        match on_exception ws room_id e with
        | Some h => closing ws (h w')
        | None => (Raise e, close_session ws w')
        end
    end.
Proof. by rewrite resume_one. Qed.

(** Facts that depend on the environment only. *)
Lemma send_event_env w w' message c :
  chan_fault w' = chan_fault w → send_event w' message c = send_event w message c.
Proof.
  intros He. unfold send_event.
  destruct (decide (accepts w' c)) as [Ha'|Ha'], (decide (accepts w c)) as [Ha|Ha];
    unfold accepts in *; rewrite He in Ha'; done.
Qed.

Lemma fan_out_env w w' message sender l :
  chan_fault w' = chan_fault w →
  fan_out w' message sender l = fan_out w message sender l.
Proof.
  intros He. unfold fan_out. apply list_fmap_ext.
  intros _ c _. by apply send_event_env.
Qed.

Lemma new_events_calls w w' evs : calls w' = calls w ++ evs → new_events w w' = evs.
Proof. intros Hc. unfold new_events. by rewrite Hc, drop_app_length. Qed.

(** ** code_update *)

Lemma alter_present {A} (f : A → A) (m : gmap string A) k x :
  m !! k = Some x → alter f k m = <[k := f x]> m.
Proof.
  intros Hk. apply map_eq. intros i.
  rewrite lookup_alter, lookup_insert. case_decide; [|done]. subst i. by rewrite Hk.
Qed.

Lemma get_room_held db room_id row w :
  db_fault w OpQuery = false →
  rooms w !! room_id = Some row →
  ∃ w0, get_room db room_id w = (Ret (Some (held db room_id row w)), w0)
        ∧ same_outside_sessions w0 w.
Proof.
  intros Hq Hrow. unfold get_room, held. rewrite Hq, Hrow.
  destruct (identity_map db w !! room_id) as [[obj|]|];
    eexists; (split; [done|]); by try apply set_identity_map_same_outside.
Qed.

(** [update_room_code] when the query and the commit go through and the
    room has a row: it returns [True] having logged the commit, and the
    code column took the new value unless the session held an equal one. *)
Lemma update_room_code_done db room_id new_code v row w :
  db_fault w OpQuery = false →
  db_fault w OpCommit = false →
  rooms w !! room_id = Some row →
  column_value w new_code = Some v →
  ∃ w1, update_room_code db room_id new_code w = (Ret true, w1)
        ∧ active_connections w1 = active_connections w
        ∧ calls w1 = calls w ++ [EvCommit room_id new_code]
        ∧ chan_fault w1 = chan_fault w
        ∧ db_fault w1 = db_fault w
        ∧ bind_param w1 = bind_param w
        ∧ rooms w1
          = if same_as_loaded new_code (code (held db room_id row w))
            then rooms w
            else <[room_id := write_code v row]> (rooms w).
Proof.
  intros Hq Hc Hrow Hv.
  destruct (get_room_held db room_id row w Hq Hrow)
    as (w0 & Hget & Hconns & Hrooms & Hcalls & Hchan & Hdb & Hbind).
  unfold update_room_code, mbind, M_bind. rewrite Hget.
  assert (column_value w0 new_code = Some v) as Hv0
    by (unfold column_value in *; by rewrite Hbind).
  unfold commit_code. rewrite Hdb, Hc, Hv0.
  destruct (same_as_loaded new_code (code (held db room_id row w))).
  - eexists. split; [done|]. destruct db; simpl; by rewrite ?Hcalls.
  - eexists. split; [done|]. rewrite Hrooms, (alter_present _ _ _ row) by done.
    destruct db; simpl; by rewrite ?Hcalls.
Qed.

(** C9. Clients 1 and 2 join the room while its code is "x=1"; client 2
    sends a [code_update] with "y=2", which is stored.  Client 1 then
    sends a [code_update] with "x=1": [update_room_code] goes through, the
    commit is made and the envelope with "x=1" is sent to client 2, but
    the table still says "y=2".  The session of client 1 has held the row
    since it joined, with code "x=1", so the assignment changes nothing
    in its eyes and the UPDATE leaves the code column out. *)
Theorem typing_the_joined_code_back_is_relayed_but_not_stored :
  rooms world_two !! "abc12345" = Some {| code := JStr "x=1"; language := "python" |}
  ∧ rooms world_two_after_y2 !! "abc12345"
    = Some {| code := JStr "y=2"; language := "python" |}
  ∧ ∃ w', resume 1 "abc12345" [Frame (JObj update_x1)] world_two_after_y2
          = (Ret Streaming, w')
          ∧ new_events world_two_after_y2 w'
            = [EvCommit "abc12345" (JStr "x=1");
               EvSend 2 (code_update_message (JStr "x=1") (JNum 3))]
          ∧ rooms w' !! "abc12345"
            = Some {| code := JStr "y=2"; language := "python" |}.
Proof.
  split; [vm_compute; reflexivity|]. split; [vm_compute; reflexivity|].
  eexists. split; [vm_compute; reflexivity|]. split; vm_compute; reflexivity.
Qed.

(** C10. Client 1 joins the room, whose code is "x=1", and sends a
    [code_update] without [code]: the empty string is stored.  Client 2
    joins, and client 1 sends a [code_update] with "y=2", which is stored.
    Client 2 then sends a [code_update] without [code]: the envelope
    relayed to client 1 has the empty string as code and 0 as cursor
    position and the commit is made, but the table still says "y=2".  The
    empty string is what the session of client 2 has held since it
    joined, so the code column is left out of the UPDATE. *)
Theorem a_code_less_update_is_not_stored_by_a_session_that_loaded_blank :
  rooms world0 !! "abc12345" = Some {| code := JStr "x=1"; language := "python" |}
  ∧ rooms world_blanked !! "abc12345"
    = Some {| code := JStr EmptyString; language := "python" |}
  ∧ rooms world_blanked_after_y2 !! "abc12345"
    = Some {| code := JStr "y=2"; language := "python" |}
  ∧ ∃ w', resume 2 "abc12345" [Frame (JObj update_without_code)] world_blanked_after_y2
          = (Ret Streaming, w')
          ∧ new_events world_blanked_after_y2 w'
            = [EvCommit "abc12345" (JStr EmptyString);
               EvSend 1 (code_update_message (JStr EmptyString) (JNum 0))]
          ∧ rooms w' !! "abc12345"
            = Some {| code := JStr "y=2"; language := "python" |}.
Proof.
  split; [vm_compute; reflexivity|]. split; [vm_compute; reflexivity|].
  split; [vm_compute; reflexivity|].
  eexists. split; [vm_compute; reflexivity|]. split; vm_compute; reflexivity.
Qed.

(** ** code_update when the store fails *)

(** C7, as stated, fails: clients 1 and 2 are in the room, client 1 sends
    a [code_update], the commit raises, and the coroutine of client 1
    leaves the loop without anything being sent to client 2. *)
Lemma failed_commit_is_not_survived :
  str_eq (message_type_of update_y2) "code_update" = true
  ∧ update_room_code (SessionOf 1) "abc12345" (JStr "y=2") world_two_commit_fails
    = (Raise SQLAlchemyError, world_two_commit_fails)
  ∧ ¬ relays_code_update 1 "abc12345" update_y2 world_two_commit_fails
  ∧ ∃ w', resume 1 "abc12345" [Frame (JObj update_y2)] world_two_commit_fails
          = (Ret Closed, w')
          ∧ new_events world_two_commit_fails w' = []
          ∧ members "abc12345" w' = [2].
Proof.
  split; [reflexivity|]. split; [vm_compute; reflexivity|]. split.
  - intros (w' & Hrun & _). vm_compute in Hrun. discriminate Hrun.
  - eexists. split; [vm_compute; reflexivity|]. split; vm_compute; reflexivity.
Qed.

(** C7, amended. While a [code_update] is handled, an exception raised by
    [update_room_code] is not caught in the loop: it reaches the outermost
    handler, which takes the socket out of the registry, and the coroutine
    returns; the envelope is sent to nobody and the row is unchanged.
    When [update_room_code] instead reports the failure by returning
    [False] (the room has no row) and the code is a string, the handler
    goes on: the envelope reaches every other member whose socket takes
    the send, the table is unchanged, and the coroutine stays in the
    loop. *)
Theorem store_exception_ends_the_loop_false_result_does_not
    ws room_id fields w :
  str_eq (message_type_of fields) "code_update" = true →
  (∀ e w1,
     update_room_code (SessionOf ws) room_id (code_of fields) w = (Raise e, w1) →
     ∃ w', resume ws room_id [Frame (JObj fields)] w = (Ret Closed, w')
           ∧ active_connections w' = remove_conn ws room_id (active_connections w)
           ∧ rooms w' = rooms w
           ∧ ∀ c, code_update_message (code_of fields) (cursor_position_of fields)
                  ∉ inbox c (new_events w w'))
  ∧ (∀ s,
       code_of fields = JStr s →
       update_room_code (SessionOf ws) room_id (JStr s) w = (Ret false, w) →
       ∃ w', resume ws room_id [Frame (JObj fields)] w = (Ret Streaming, w')
             ∧ rooms w' = rooms w
             ∧ ∀ c, c ∈ members room_id w → c ≠ ws → accepts w c →
                    code_update_message (JStr s) (cursor_position_of fields)
                    ∈ inbox c (new_events w w')).
Proof.
  intros Ht. split.
  - intros e w1 Hraise.
    destruct (update_room_code_raise_inv _ _ _ _ _ _ Hraise)
      as [-> (Hconns & Hrooms & Hcalls & _)].
    exists (dropped ws room_id w1).
    split; [|split; [|split]].
    + rewrite resume_frame. rewrite handle_code_update by done.
      unfold mbind at 1, M_bind at 1. rewrite Hraise.
      destruct (on_exception_unexpected ws room_id SQLAlchemyError w1)
        as (h & -> & ->); done.
    + simpl. by rewrite Hconns.
    + done.
    + intros c. unfold new_events. simpl. rewrite Hcalls, drop_all.
      apply not_elem_of_nil.
  - intros s Hcode Hfalse.
    destruct (active_connections w !! room_id) as [l|] eqn:Hl.
    + eexists. split; [|split].
      * rewrite resume_frame. rewrite handle_code_update by done. rewrite Hcode.
        unfold mbind, M_bind. rewrite Hfalse.
        rewrite (broadcast_eq _ _ _ _ l) by done. reflexivity.
      * done.
      * intros c Hc Hne Ha. rewrite new_events_append.
        unfold members in Hc. rewrite Hl in Hc. simpl in Hc.
        apply elem_of_inbox_fan_out. by repeat split; [|congruence|].
    + exists w. split; [|split; [done|]].
      * rewrite resume_frame. rewrite handle_code_update by done. rewrite Hcode.
        unfold mbind, M_bind. rewrite Hfalse.
        by rewrite broadcast_absent.
      * intros c Hc. unfold members in Hc. rewrite Hl in Hc.
        by apply elem_of_nil in Hc.
Qed.

Lemma store_exception_ends_the_loop_false_result_does_not_witness :
  (∃ w', resume 1 "abc12345" [Frame (JObj update_y2)] world_two_commit_fails
         = (Ret Closed, w')
         ∧ active_connections w'
           = remove_conn 1 "abc12345" (active_connections world_two_commit_fails)
         ∧ rooms w' = rooms world_two_commit_fails
         ∧ ∀ c, code_update_message (code_of update_y2) (cursor_position_of update_y2)
                ∉ inbox c (new_events world_two_commit_fails w'))
  ∧ (∃ w', resume 1 "abc12345" [Frame (JObj update_y2)] world_two_row_gone
           = (Ret Streaming, w')
           ∧ rooms w' = rooms world_two_row_gone
           ∧ ∀ c, c ∈ members "abc12345" world_two_row_gone → c ≠ 1 →
                  accepts world_two_row_gone c →
                  code_update_message (JStr "y=2") (cursor_position_of update_y2)
                  ∈ inbox c (new_events world_two_row_gone w')).
Proof.
  split.
  - apply (proj1 (store_exception_ends_the_loop_false_result_does_not
                    1 "abc12345" update_y2 world_two_commit_fails eq_refl)
             SQLAlchemyError world_two_commit_fails).
    vm_compute. reflexivity.
  - apply (proj2 (store_exception_ends_the_loop_false_result_does_not
                    1 "abc12345" update_y2 world_two_row_gone eq_refl)
             "y=2").
    + reflexivity.
    + vm_compute. reflexivity.
Defined.

(** ** Joining *)

Lemma connect_eq ws room_id w :
  chan_fault w ws OpAccept = None →
  connect ws room_id w =
    (Ret tt,
     set_connections (<[room_id := members room_id w ++ [ws]]> (active_connections w))
                     (log (EvAccept ws) w)).
Proof.
  intros Ha. unfold connect, accept, members. unfold_m. rewrite Ha. simpl.
  destruct (active_connections w !! room_id) as [l|] eqn:Hl; simpl.
  - by rewrite Hl.
  - rewrite lookup_insert_eq. simpl.
    by rewrite insert_insert_eq.
Qed.

(** The first query of a session that was just opened. *)
Lemma get_room_fresh ws room_id room w :
  db_fault w OpQuery = false →
  rooms w !! room_id = Some room →
  get_room (SessionOf ws) room_id (set_sessions (delete ws (sessions w)) w)
  = (Ret (Some room),
     set_sessions (<[ws := <[room_id := Loaded room]> ∅]> (delete ws (sessions w))) w).
Proof.
  intros Hq Hroom. unfold get_room, identity_map, set_identity_map. simpl.
  rewrite Hq, Hroom, lookup_delete_eq. simpl. by rewrite lookup_empty.
Qed.

Lemma endpoint_admitted ws room_id room w :
  db_fault w OpQuery = false →
  rooms w !! room_id = Some room →
  chan_fault w ws OpAccept = None →
  accepts w ws →
  websocket_endpoint ws room_id [] w = (Ret Streaming, after_join ws room_id room w).
Proof.
  intros Hq Hroom Hacc Hsend.
  unfold websocket_endpoint. unfold mbind at 1, M_bind at 1, open_session.
  unfold finally_close, try_except, join.
  unfold mbind at 1, M_bind at 1.
  unfold mbind at 1, M_bind at 1. rewrite (get_room_fresh _ _ room) by done.
  unfold mbind at 1, M_bind at 1. rewrite connect_eq by done.
  unfold mbind at 1, M_bind at 1. unfold send_json at 1. simpl chan_fault.
  unfold accepts in Hsend. rewrite Hsend.
  unfold mbind at 1, M_bind at 1.
  unfold get_room_user_count, get_connections.
  unfold mbind at 1, M_bind at 1, mret at 1, M_ret at 1.
  simpl active_connections. rewrite lookup_insert_eq. simpl default.
  unfold mbind at 1, M_bind at 1.
  rewrite broadcast_to_all_eq.
  rewrite (broadcast_eq _ _ _ _ (members room_id w ++ [ws]))
    by (simpl; by rewrite lookup_insert_eq).
  reflexivity.
Qed.

Lemma fan_out_app w message sender l1 l2 :
  fan_out w message sender (l1 ++ l2)
  = fan_out w message sender l1 ++ fan_out w message sender l2.
Proof. unfold fan_out. by rewrite filter_app, fmap_app. Qed.

Lemma inbox_fan_out_self w message c :
  accepts w c → inbox c (fan_out w message None [c]) = [message].
Proof.
  intros Ha. unfold fan_out. rewrite filter_cons_True by done. rewrite filter_nil.
  simpl. unfold send_event. rewrite decide_True by done. simpl.
  by rewrite decide_True.
Qed.

Lemma after_join_events ws room_id room w :
  new_events w (after_join ws room_id room w)
  = EvAccept ws
    :: EvSend ws (init_message room room_id)
    :: fan_out w (user_count_message (S (length (members room_id w)))) None
               (members room_id w ++ [ws]).
Proof.
  apply new_events_calls. unfold after_join. simpl.
  rewrite length_app. simpl. rewrite Nat.add_1_r.
  by rewrite <- !app_assoc.
Qed.

(** C8. A join that succeeds (the row exists, the query goes through, the
    socket, not yet a member, is accepted and takes sends): the calls made
    are the accept, one [send_json] of the [init] envelope on the new
    socket, carrying the row's code and language and the room id, and then
    the fan-out of [user_count] with the new number of members over all
    members, the new one included.  The new socket receives [init] then
    [user_count] and nothing else, no other socket receives [init], every
    member whose socket takes the send receives [user_count], and the
    coroutine is in the loop with the socket among the members. *)
Theorem join_sends_init_to_the_joiner_then_user_count_to_all
    ws room_id room l w :
  db_fault w OpQuery = false →
  rooms w !! room_id = Some room →
  chan_fault w ws OpAccept = None →
  accepts w ws →
  members room_id w = l →
  ws ∉ l →
  let init := JObj [("type", JStr "init"); ("code", code room);
                    ("roomId", JStr room_id); ("language", JStr (language room))] in
  let user_count := JObj [("type", JStr "user_count");
                          ("count", JNum (Z.of_nat (S (length l))))] in
  ∃ w', websocket_endpoint ws room_id [] w = (Ret Streaming, w')
        ∧ new_events w w'
          = EvAccept ws :: EvSend ws init :: fan_out w user_count None (l ++ [ws])
        ∧ inbox ws (new_events w w') = [init; user_count]
        ∧ (∀ c, c ≠ ws → init ∉ inbox c (new_events w w'))
        ∧ (∀ c, c ∈ l ++ [ws] → accepts w c → user_count ∈ inbox c (new_events w w'))
        ∧ ws ∈ members room_id w'.
Proof.
  intros Hq Hroom Hacc Hsend Hl Hfresh init user_count.
  exists (after_join ws room_id room w).
  split; [by apply endpoint_admitted|].
  rewrite after_join_events, Hl.
  change (user_count_message (S (length l))) with user_count.
  change (init_message room room_id) with init.
  repeat split.
  - simpl. rewrite decide_True by done. f_equal.
    rewrite fan_out_app, inbox_app, inbox_fan_out_self by done.
    rewrite inbox_fan_out_nil by (right; by right). done.
  - intros c Hc. simpl. rewrite decide_False by done.
    intros (Hi & _)%elem_of_inbox_fan_out. discriminate Hi.
  - intros c Hc Ha. simpl.
    case_decide; [apply list_elem_of_further|]; by apply elem_of_inbox_fan_out.
  - unfold after_join, members at 1. simpl active_connections.
    rewrite pruned_members by (simpl; by rewrite lookup_insert_eq).
    apply list_elem_of_filter. split; [by intros [_ ?]|].
    apply elem_of_app. right. apply list_elem_of_here.
Qed.

Lemma join_sends_init_to_the_joiner_then_user_count_to_all_witness :
  let w := run (websocket_endpoint 1 "abc12345" []) world0 in
  let init := JObj [("type", JStr "init"); ("code", code sample_room);
                    ("roomId", JStr "abc12345");
                    ("language", JStr (language sample_room))] in
  let user_count := JObj [("type", JStr "user_count");
                          ("count", JNum (Z.of_nat (S (length [1]))))] in
  ∃ w', websocket_endpoint 2 "abc12345" [] w = (Ret Streaming, w')
        ∧ new_events w w'
          = EvAccept 2 :: EvSend 2 init :: fan_out w user_count None ([1] ++ [2])
        ∧ inbox 2 (new_events w w') = [init; user_count]
        ∧ (∀ c, c ≠ 2 → init ∉ inbox c (new_events w w'))
        ∧ (∀ c, c ∈ [1] ++ [2] → accepts w c → user_count ∈ inbox c (new_events w w'))
        ∧ 2 ∈ members "abc12345" w'.
Proof.
  intros w.
  apply (join_sends_init_to_the_joiner_then_user_count_to_all
           2 "abc12345" sample_room [1] w).
  - reflexivity.
  - vm_compute. reflexivity.
  - reflexivity.
  - reflexivity.
  - vm_compute. reflexivity.
  - intros [Hc|Hc%elem_of_nil]%elem_of_cons; [discriminate Hc|done].
Defined.

(** * Further properties of the manager *)

(** ** [list.remove] *)

Lemma list_remove_not_elem_of x l : x ∉ l → list_remove x l = None.
Proof.
  induction l as [|y l IH]; intros Hx; simpl; [done|].
  rewrite decide_False by (intros ->; apply Hx, list_elem_of_here).
  rewrite IH; [done|]. intros ?. apply Hx. by apply list_elem_of_further.
Qed.

Lemma list_remove_is_Some x l : x ∈ l → is_Some (list_remove x l).
Proof.
  induction l as [|y l IH]; intros Hx; simpl; [by apply elem_of_nil in Hx|].
  case_decide; [done|].
  apply elem_of_cons in Hx as [->|Hx]; [done|].
  destruct (IH Hx) as [l' ->]. done.
Qed.

Lemma list_remove_sublist x l l' : list_remove x l = Some l' → l' `sublist_of` l.
Proof.
  revert l'. induction l as [|y l IH]; intros l'; simpl; [done|].
  case_decide.
  - intros [= ->]. by apply sublist_cons.
  - destruct (list_remove x l) as [l0|]; simpl; [|done].
    intros [= <-]. apply sublist_skip. by apply IH.
Qed.

Lemma list_remove_elem_of_ne x l l' c :
  list_remove x l = Some l' → c ≠ x → c ∈ l' ↔ c ∈ l.
Proof.
  revert l'. induction l as [|y l IH]; intros l'; simpl; [done|].
  case_decide as Hy.
  - intros [= ->] Hc. rewrite elem_of_cons. subst y. naive_solver.
  - destruct (list_remove x l) as [l0|]; simpl; [|done].
    intros [= <-] Hc. rewrite !elem_of_cons, IH by done. done.
Qed.

Lemma list_remove_NoDup x l l' :
  NoDup l → list_remove x l = Some l' → (x ∉ l') ∧ NoDup l'.
Proof.
  revert l'. induction l as [|y l IH]; intros l' Hnd; simpl; [done|].
  apply NoDup_cons in Hnd as [Hy Hnd].
  case_decide as Hyx.
  - intros [= ->]. by subst y.
  - destruct (list_remove x l) as [l0|] eqn:Hr; simpl; [|done].
    intros [= <-]. destruct (IH l0 Hnd eq_refl) as [Hx Hnd0]. split.
    + rewrite not_elem_of_cons. split; [congruence|done].
    + apply NoDup_cons. split; [|done].
      intros Hin. apply Hy. eapply elem_of_sublist; [done|]. by eapply list_remove_sublist.
Qed.

(** ** connect and disconnect *)

(** X1. Removing a socket that is not listed under the room, or from a room
    without entry, changes nothing at all: [disconnect] may be called
    twice for the same socket. *)
Theorem disconnect_of_a_stranger_is_a_no_op ws room_id w :
  ws ∉ members room_id w →
  disconnect ws room_id w = (Ret tt, w).
Proof.
  intros Hws. rewrite disconnect_eq. unfold remove_conn. unfold members in Hws.
  destruct (active_connections w !! room_id) as [l|]; simpl in Hws.
  - rewrite list_remove_not_elem_of by done. by rewrite set_connections_same.
  - by rewrite set_connections_same.
Qed.

Lemma disconnect_of_a_stranger_is_a_no_op_witness :
  disconnect 9 "abc12345" world_two = (Ret tt, world_two).
Proof.
  apply (disconnect_of_a_stranger_is_a_no_op 9 "abc12345" world_two).
  vm_compute. intros Hin.
  apply elem_of_cons in Hin as [Hin|Hin]; [discriminate Hin|].
  apply elem_of_cons in Hin as [Hin|Hin]; [discriminate Hin|].
  by apply elem_of_nil in Hin.
Defined.

(** X2. Admitting a socket that is not yet a member and removing it again
    gives back the dictionary as it was, key for key: the entry created
    for a first member is deleted again, an existing list gets its old
    value.  (The room must not be bound to the empty list, which the
    manager never does.) *)
Theorem connect_then_disconnect_restores_the_registry ws room_id w :
  chan_fault w ws OpAccept = None →
  ws ∉ members room_id w →
  active_connections w !! room_id ≠ Some [] →
  active_connections (run (disconnect ws room_id) (run (connect ws room_id) w))
  = active_connections w.
Proof.
  intros Hacc Hws Hne. unfold run. rewrite connect_eq by done. simpl.
  rewrite disconnect_eq. simpl. unfold remove_conn.
  rewrite lookup_insert_eq, (list_remove_middle ws (members room_id w) []) by done.
  rewrite app_nil_r. unfold members in *.
  destruct (active_connections w !! room_id) as [l|] eqn:Hl; simpl in *.
  - destruct l as [|c l]; [done|]. rewrite insert_insert_eq. by apply insert_id.
  - rewrite delete_insert_eq. by apply delete_id.
Qed.

Lemma connect_then_disconnect_restores_the_registry_witness :
  active_connections (run (disconnect 9 "abc12345") (run (connect 9 "abc12345") world_two))
  = active_connections world_two.
Proof.
  apply (connect_then_disconnect_restores_the_registry 9 "abc12345" world_two).
  - reflexivity.
  - vm_compute. intros Hin.
    apply elem_of_cons in Hin as [Hin|Hin]; [discriminate Hin|].
    apply elem_of_cons in Hin as [Hin|Hin]; [discriminate Hin|].
    by apply elem_of_nil in Hin.
  - vm_compute. discriminate.
Defined.

(** X3. [disconnect] of a member takes out one occurrence of the socket and
    nothing else: the count of the room drops by exactly one, every other
    socket is a member after if and only if it was before, the remaining
    members keep their order, and the other rooms are not touched. *)
Theorem disconnect_of_a_member_drops_the_count_by_one ws room_id w :
  ws ∈ members room_id w →
  ∃ w', disconnect ws room_id w = (Ret tt, w')
        ∧ S (length (members room_id w')) = length (members room_id w)
        ∧ members room_id w' `sublist_of` members room_id w
        ∧ (∀ c, c ≠ ws → c ∈ members room_id w' ↔ c ∈ members room_id w)
        ∧ (∀ r, r ≠ room_id → active_connections w' !! r = active_connections w !! r).
Proof.
  intros Hws. eexists. split; [apply disconnect_eq|].
  unfold members in *. simpl. unfold remove_conn.
  destruct (active_connections w !! room_id) as [l|] eqn:Hl; simpl in Hws;
    [|by apply elem_of_nil in Hws].
  destruct (list_remove_is_Some ws l Hws) as [l' Hl']. rewrite Hl'.
  assert (default [] (match l' with
                      | [] => delete room_id (active_connections w)
                      | _ :: _ => <[room_id:=l']> (active_connections w)
                      end !! room_id) = l') as Hm.
  { destruct l'; [by rewrite lookup_delete_eq|by rewrite lookup_insert_eq]. }
  rewrite Hm. simpl.
  split; [symmetry; by eapply list_remove_length|].
  split; [by eapply list_remove_sublist|].
  split; [intros c Hc; by apply (list_remove_elem_of_ne ws l l')|].
  intros r Hr. destruct l'; [by rewrite lookup_delete_ne|by rewrite lookup_insert_ne].
Qed.

Lemma disconnect_of_a_member_drops_the_count_by_one_witness :
  ∃ w', disconnect 1 "abc12345" world_two = (Ret tt, w')
        ∧ S (length (members "abc12345" w')) = length (members "abc12345" world_two)
        ∧ members "abc12345" w' `sublist_of` members "abc12345" world_two
        ∧ (∀ c, c ≠ 1 → c ∈ members "abc12345" w' ↔ c ∈ members "abc12345" world_two)
        ∧ (∀ r, r ≠ "abc12345" →
             active_connections w' !! r = active_connections world_two !! r).
Proof.
  apply (disconnect_of_a_member_drops_the_count_by_one 1 "abc12345" world_two).
  vm_compute. apply list_elem_of_here.
Defined.

(** X4. [connect] puts the socket at the end of the room's list, so that the
    count goes up by one, and leaves the other rooms alone; when [accept]
    raises, [connect] raises the same exception and nothing has changed:
    a socket is never listed without having been accepted. *)
Theorem connect_appends_or_changes_nothing ws room_id w :
  match chan_fault w ws OpAccept with
  | None =>
      ∃ w', connect ws room_id w = (Ret tt, w')
            ∧ members room_id w' = members room_id w ++ [ws]
            ∧ get_room_user_count room_id w'
              = (Ret (S (length (members room_id w))), w')
            ∧ ∀ r, r ≠ room_id → active_connections w' !! r = active_connections w !! r
  | Some e => connect ws room_id w = (Raise e, w)
  end.
Proof.
  destruct (chan_fault w ws OpAccept) as [e|] eqn:Hacc.
  - unfold connect, accept, mbind, M_bind. by rewrite Hacc.
  - eexists. split; [by apply connect_eq|].
    assert (members room_id
              (set_connections
                 (<[room_id:=members room_id w ++ [ws]]> (active_connections w))
                 (log (EvAccept ws) w)) = members room_id w ++ [ws]) as Hm.
    { unfold members at 1. simpl. by rewrite lookup_insert_eq. }
    split; [done|]. split.
    + unfold get_room_user_count, get_connections, mbind, M_bind, mret, M_ret.
      fold (members room_id
              (set_connections
                 (<[room_id:=members room_id w ++ [ws]]> (active_connections w))
                 (log (EvAccept ws) w))).
      rewrite Hm, length_app. simpl. by rewrite Nat.add_1_r.
    + intros r Hr. simpl. by rewrite lookup_insert_ne.
Qed.

(** ** More on the broadcasts *)

(** The effect of [broadcast], whether the room has an entry or not. *)
Lemma broadcast_effect_any room_id message sender w :
  ∃ w', broadcast room_id message sender w = (Ret tt, w')
        ∧ calls w' = calls w ++ fan_out w message sender (members room_id w)
        ∧ members room_id w'
          = filter (λ c, ¬ failed_on w sender c) (members room_id w)
        ∧ (∀ r, r ≠ room_id → active_connections w' !! r = active_connections w !! r)
        ∧ rooms w' = rooms w
        ∧ chan_fault w' = chan_fault w
        ∧ db_fault w' = db_fault w.
Proof.
  unfold members at 1 3.
  destruct (active_connections w !! room_id) as [l|] eqn:Hl; simpl.
  - eexists. split; [by apply broadcast_eq|]. simpl.
    split; [done|]. split; [by apply pruned_members|].
    split; [intros r Hr; by apply pruned_other|done].
  - exists w. split; [by apply broadcast_absent|].
    unfold members. rewrite Hl. simpl. by rewrite app_nil_r.
Qed.

Lemma filter_none {A} (P : A → Prop) `{!∀ x, Decision (P x)} (l : list A) :
  (∀ x, x ∈ l → ¬ P x) → filter P l = [].
Proof.
  induction l as [|x l IH]; intros HP; [done|].
  rewrite filter_cons_False by (apply HP, list_elem_of_here).
  apply IH. intros y Hy. by apply HP, list_elem_of_further.
Qed.

Lemma filter_all {A} (P : A → Prop) `{!∀ x, Decision (P x)} (l : list A) :
  (∀ x, x ∈ l → P x) → filter P l = l.
Proof.
  induction l as [|x l IH]; intros HP; [done|].
  rewrite filter_cons_True by (apply HP, list_elem_of_here).
  f_equal. apply IH. intros y Hy. by apply HP, list_elem_of_further.
Qed.

(** X5. A broadcast stays inside its room: every call it makes is a
    [send_json] of that very message on a socket listed under the room,
    the lists of the other rooms and the table are left alone, and the
    room gains no member. *)
Theorem broadcast_stays_inside_its_room room_id message sender w :
  ∃ w', broadcast room_id message sender w = (Ret tt, w')
        ∧ (∀ e, e ∈ new_events w w' →
             ∃ c, c ∈ members room_id w
                  ∧ (e = EvSend c message ∨ e = EvSendFailed c message))
        ∧ members room_id w' `sublist_of` members room_id w
        ∧ (∀ r, r ≠ room_id → active_connections w' !! r = active_connections w !! r)
        ∧ rooms w' = rooms w.
Proof.
  destruct (broadcast_effect_any room_id message sender w)
    as (w' & Hb & Hcalls & Hm & Hother & Hrooms & _).
  exists w'. split; [done|].
  rewrite (new_events_calls _ _ _ Hcalls), Hm.
  split; [|split; [apply sublist_filter|done]].
  intros e (c & -> & Hc & _)%elem_of_fan_out. exists c. split; [done|].
  unfold send_event. case_decide; [by left|by right].
Qed.

(** X6. When every member's socket takes the send, a broadcast changes the
    manager's dictionary in nothing, and its calls are one successful
    [send_json] per member other than the sender, in the order of the
    list. *)
Theorem broadcast_in_a_healthy_room_evicts_nobody room_id message sender w :
  (∀ c, c ∈ members room_id w → accepts w c) →
  ∃ w', broadcast room_id message sender w = (Ret tt, w')
        ∧ active_connections w' = active_connections w
        ∧ new_events w w'
          = (λ c, EvSend c message)
              <$> filter (λ c, Some c ≠ sender) (members room_id w).
Proof.
  intros Hok. unfold members in *.
  destruct (active_connections w !! room_id) as [l|] eqn:Hl; simpl in *.
  - eexists. split; [by apply broadcast_eq|]. split.
    + simpl. unfold pruned. rewrite filter_none; [done|].
      intros c Hc [_ Hf]. by apply Hf, Hok.
    + rewrite new_events_append. unfold fan_out. apply list_fmap_ext.
      intros i c Hi. unfold send_event. rewrite decide_True; [done|].
      apply Hok. apply list_elem_of_lookup_2 in Hi.
      by apply list_elem_of_filter in Hi as [_ ?].
  - exists w. split; [by apply broadcast_absent|]. split; [done|].
    by rewrite new_events_same.
Qed.

Lemma broadcast_in_a_healthy_room_evicts_nobody_witness :
  ∃ w', broadcast "abc12345" (user_count_message 2) (Some 1) world_two = (Ret tt, w')
        ∧ active_connections w' = active_connections world_two
        ∧ new_events world_two w'
          = (λ c, EvSend c (user_count_message 2))
              <$> filter (λ c, Some c ≠ Some 1) (members "abc12345" world_two).
Proof.
  apply (broadcast_in_a_healthy_room_evicts_nobody
           "abc12345" (user_count_message 2) (Some 1) world_two).
  intros c _. reflexivity.
Defined.

Lemma inbox_fan_out_NoDup w message sender l c :
  NoDup l → c ∈ l → Some c ≠ sender → accepts w c →
  inbox c (fan_out w message sender l) = [message].
Proof.
  intros Hnd Hc Hs Ha. induction l as [|d l IH]; [by apply elem_of_nil in Hc|].
  apply NoDup_cons in Hnd as [Hd Hnd].
  change (d :: l) with ([d] ++ l). rewrite fan_out_app, inbox_app.
  destruct (decide (d = c)) as [->|Hdc].
  - rewrite (inbox_fan_out_nil _ _ _ l) by (right; by right).
    rewrite app_nil_r. unfold fan_out.
    rewrite filter_cons_True by done. rewrite filter_nil. simpl.
    unfold send_event. rewrite decide_True by done. simpl.
    by rewrite decide_True.
  - apply elem_of_cons in Hc as [->|Hc]; [done|].
    rewrite (inbox_fan_out_nil _ _ _ [d]).
    + by apply IH.
    + right; right. intros [->|?%elem_of_nil]%elem_of_cons; done.
Qed.

(** X7. Delivery is at most once: in a room whose list has no socket twice,
    one broadcast puts the message exactly once on the wire of every
    member that is not the sender and whose socket takes the send, and
    nothing on the wire of anybody else. *)
Theorem broadcast_delivers_exactly_once room_id message sender w c :
  NoDup (members room_id w) →
  ∃ w', broadcast room_id message sender w = (Ret tt, w')
        ∧ inbox c (new_events w w')
          = if decide (c ∈ members room_id w ∧ Some c ≠ sender ∧ accepts w c)
            then [message] else [].
Proof.
  intros Hnd.
  destruct (broadcast_effect_any room_id message sender w)
    as (w' & Hb & Hcalls & _).
  exists w'. split; [done|]. rewrite (new_events_calls _ _ _ Hcalls).
  case_decide as Hc.
  - destruct Hc as (? & ? & ?). by apply inbox_fan_out_NoDup.
  - apply inbox_fan_out_nil.
    destruct (decide (Some c = sender)); [by left|].
    destruct (decide (accepts w c)); [|by right; left].
    right; right. intros ?. by apply Hc.
Qed.

Lemma broadcast_delivers_exactly_once_witness :
  ∃ w', broadcast "abc12345" (user_count_message 3) (Some 1) world_three = (Ret tt, w')
        ∧ inbox 3 (new_events world_three w')
          = if decide (3 ∈ members "abc12345" world_three
                       ∧ Some 3 ≠ Some 1 ∧ accepts world_three 3)
            then [user_count_message 3] else [].
Proof.
  apply (broadcast_delivers_exactly_once
           "abc12345" (user_count_message 3) (Some 1) world_three 3).
  vm_compute. repeat constructor; set_solver.
Defined.

Lemma accepts_env w w' c : chan_fault w' = chan_fault w → accepts w' c ↔ accepts w c.
Proof. intros He. unfold accepts. by rewrite He. Qed.

(** X8. Within one room, what [broadcast_to_all] sends arrives in the order of
    the calls: a member whose socket takes sends, in a room whose list has
    no socket twice, receives from two broadcasts in a row the first
    message and then the second, each once; members evicted by the first
    broadcast do not disturb this. *)
Theorem two_broadcasts_arrive_in_order room_id m1 m2 w c :
  NoDup (members room_id w) →
  c ∈ members room_id w →
  accepts w c →
  ∃ w1 w2,
    broadcast_to_all room_id m1 w = (Ret tt, w1)
    ∧ broadcast_to_all room_id m2 w1 = (Ret tt, w2)
    ∧ inbox c (new_events w w2) = [m1; m2].
Proof.
  intros Hnd Hc Ha.
  destruct (broadcast_effect_any room_id m1 None w)
    as (w1 & Hb1 & Hcalls1 & Hm1 & _ & _ & Hf1 & _).
  destruct (broadcast_effect_any room_id m2 None w1)
    as (w2 & Hb2 & Hcalls2 & _).
  exists w1, w2. rewrite !broadcast_to_all_eq. split; [done|]. split; [done|].
  rewrite (new_events_calls w w2 (fan_out w m1 None (members room_id w)
                                  ++ fan_out w1 m2 None (members room_id w1)))
    by (by rewrite Hcalls2, Hcalls1, app_assoc).
  rewrite inbox_app.
  rewrite (inbox_fan_out_NoDup w) by done.
  rewrite (inbox_fan_out_NoDup w1); [done| | |done|].
  - rewrite Hm1. by apply NoDup_filter.
  - rewrite Hm1. apply list_elem_of_filter. split; [by intros [_ ?]|done].
  - by apply (accepts_env w).
Qed.

Lemma two_broadcasts_arrive_in_order_witness :
  ∃ w1 w2,
    broadcast_to_all "abc12345" (JStr "running") world_three = (Ret tt, w1)
    ∧ broadcast_to_all "abc12345" (JStr "completed") w1 = (Ret tt, w2)
    ∧ inbox 3 (new_events world_three w2) = [JStr "running"; JStr "completed"].
Proof.
  apply (two_broadcasts_arrive_in_order
           "abc12345" (JStr "running") (JStr "completed") world_three 3).
  - vm_compute. repeat constructor; set_solver.
  - vm_compute. set_solver.
  - reflexivity.
Defined.

(** ** Who can become a member *)

Lemma same_connections_admits {A} (m : M A) : same_connections m → admits_nobody m.
Proof. intros Hm w r. unfold members. by rewrite Hm. Qed.

Lemma admits_nobody_ret {A} (a : A) : admits_nobody (mret a).
Proof. by intros w r. Qed.

Lemma admits_nobody_raise {A} e : admits_nobody (@raise A e).
Proof. by intros w r. Qed.

Lemma admits_nobody_bind {A B} (m : M A) (f : A → M B) :
  admits_nobody m → (∀ a, admits_nobody (f a)) → admits_nobody (m ≫= f).
Proof.
  intros Hm Hf w r. specialize (Hm w r). unfold run, mbind, M_bind in *.
  destruct (m w) as [[a|e] w']; simpl in *; [|done].
  etrans; [apply Hf|done].
Qed.

Lemma admits_nobody_try_except {A} (body : M A) handler :
  admits_nobody body →
  (∀ e h, handler e = Some h → admits_nobody h) →
  admits_nobody (try_except body handler).
Proof.
  intros Hb Hh w r. specialize (Hb w r). unfold run, try_except in *.
  destruct (body w) as [[a|e] w']; simpl in *; [done|].
  destruct (handler e) as [h|] eqn:He; [|done].
  etrans; [by eapply Hh|done].
Qed.

Lemma admits_nobody_accept ws : admits_nobody (accept ws).
Proof.
  apply same_connections_admits. intros w. unfold run, accept.
  by destruct (chan_fault w ws OpAccept).
Qed.

Lemma admits_nobody_send_json ws message : admits_nobody (send_json ws message).
Proof.
  apply same_connections_admits. intros w. unfold run, send_json.
  by destruct (chan_fault w ws OpSend).
Qed.

Lemma admits_nobody_close ws close_code reason :
  admits_nobody (close ws close_code reason).
Proof.
  apply same_connections_admits. intros w. unfold run, close.
  by destruct (chan_fault w ws OpClose).
Qed.

Lemma admits_nobody_get_room db room_id : admits_nobody (get_room db room_id).
Proof. apply same_connections_admits, same_connections_get_room. Qed.

Lemma admits_nobody_commit_code db room_id room new_code :
  admits_nobody (commit_code db room_id room new_code).
Proof. apply same_connections_admits, same_connections_commit_code. Qed.

Lemma admits_nobody_py_get message key dflt : admits_nobody (py_get message key dflt).
Proof. destruct message; by intros w r. Qed.

Lemma admits_nobody_py_len v : admits_nobody (py_len v).
Proof. destruct v; by intros w r. Qed.

Lemma admits_nobody_get_room_user_count room_id :
  admits_nobody (get_room_user_count room_id).
Proof. by intros w r. Qed.

Lemma admits_nobody_disconnect ws room_id : admits_nobody (disconnect ws room_id).
Proof.
  intros w r. unfold run. rewrite disconnect_eq. unfold members. simpl.
  destruct (decide (r = room_id)) as [->|Hr]; [|by rewrite remove_conn_other].
  unfold remove_conn.
  destruct (active_connections w !! room_id) as [l|] eqn:Hl; [|by rewrite Hl].
  destruct (list_remove ws l) as [l'|] eqn:Hl'; [|by rewrite Hl].
  apply list_remove_sublist in Hl'.
  destruct l'; [by rewrite lookup_delete_eq|by rewrite lookup_insert_eq].
Qed.

Lemma admits_nobody_broadcast room_id message sender :
  admits_nobody (broadcast room_id message sender).
Proof.
  intros w r. unfold run.
  destruct (broadcast_effect_any room_id message sender w)
    as (w' & -> & _ & Hm & Hother & _). simpl.
  destruct (decide (r = room_id)) as [->|Hr].
  - rewrite Hm. apply sublist_filter.
  - unfold members. by rewrite Hother.
Qed.

Lemma admits_nobody_broadcast_to_all room_id message :
  admits_nobody (broadcast_to_all room_id message).
Proof.
  intros w r. unfold run. rewrite broadcast_to_all_eq. apply admits_nobody_broadcast.
Qed.

Create HintDb admits discriminated.

#[local] Hint Resolve admits_nobody_ret admits_nobody_raise admits_nobody_accept
  admits_nobody_send_json admits_nobody_close admits_nobody_get_room
  admits_nobody_commit_code admits_nobody_py_get admits_nobody_py_len
  admits_nobody_get_room_user_count admits_nobody_disconnect
  admits_nobody_broadcast admits_nobody_broadcast_to_all : admits.

Ltac admits :=
  repeat first
    [ solve [auto with admits]
    | apply admits_nobody_bind; [|intros ?; cbv beta]
    | match goal with
      | |- admits_nobody (match ?x with _ => _ end) => destruct x
      end ].

Lemma admits_nobody_update_room_code db room_id new_code :
  admits_nobody (update_room_code db room_id new_code).
Proof. unfold update_room_code. admits. Qed.

#[local] Hint Resolve admits_nobody_update_room_code : admits.

Lemma admits_nobody_handle_message ws room_id message :
  admits_nobody (handle_message ws room_id message).
Proof. unfold handle_message. admits. Qed.

#[local] Hint Resolve admits_nobody_handle_message : admits.

Lemma admits_nobody_message_loop ws room_id inputs :
  admits_nobody (message_loop ws room_id inputs).
Proof.
  induction inputs as [|i inputs IH]; [by intros w r|].
  change (admits_nobody
            (message ← receive_and_load i;
             handle_message ws room_id message;;
             message_loop ws room_id inputs)).
  apply admits_nobody_bind; [destruct i; by intros w r|intros message].
  apply admits_nobody_bind; [auto with admits|intros _; exact IH].
Qed.

Lemma admits_nobody_on_exception ws room_id e h :
  on_exception ws room_id e = Some h → admits_nobody h.
Proof. destruct e; intros [= <-]; admits. Qed.

Lemma admits_nobody_finally_close ws (body : M status) :
  admits_nobody body → admits_nobody (finally_close ws body).
Proof.
  intros Hb w r. unfold members at 1. rewrite finally_close_connections. apply Hb.
Qed.

(** X9. Once a coroutine is in the loop, nothing it does on any frame, and
    nothing its exception clauses do, adds a member to any room: room by
    room, the members afterwards are a sublist of the members before.  In
    particular a list without duplicates stays without duplicates. *)
Theorem the_loop_admits_nobody ws room_id inputs w r :
  members r (run (resume ws room_id inputs) w) `sublist_of` members r w
  ∧ (NoDup (members r w) → NoDup (members r (run (resume ws room_id inputs) w))).
Proof.
  assert (members r (run (resume ws room_id inputs) w) `sublist_of` members r w) as Hs.
  { apply admits_nobody_finally_close, admits_nobody_try_except;
      [apply admits_nobody_message_loop|apply admits_nobody_on_exception]. }
  split; [done|]. intros Hnd. by eapply sublist_NoDup.
Qed.

(** ** The coroutine as a whole *)

Lemma members_after_disconnect ws room_id w :
  members room_id (run (disconnect ws room_id) w)
  = default (members room_id w) (list_remove ws (members room_id w)).
Proof.
  unfold run. rewrite disconnect_eq. unfold members. simpl. unfold remove_conn.
  destruct (active_connections w !! room_id) as [l|] eqn:Hl; simpl; [|by rewrite Hl].
  destruct (list_remove ws l) as [l'|] eqn:Hl'; simpl; [|by rewrite Hl].
  destruct l'; [by rewrite lookup_delete_eq|by rewrite lookup_insert_eq].
Qed.

Lemma bind_ret_inv {A B} (m : M A) (f : A → M B) w b w' :
  (m ≫= f) w = (Ret b, w') → ∃ a w1, m w = (Ret a, w1) ∧ f a w1 = (Ret b, w').
Proof.
  unfold mbind, M_bind. destruct (m w) as [[a|e] w1]; [|done]. eauto.
Qed.

Lemma message_loop_app ws room_id xs ys w :
  message_loop ws room_id (xs ++ ys) w =
    match message_loop ws room_id xs w with
    | (Ret _, w1) => message_loop ws room_id ys w1
    | (Raise e, w1) => (Raise e, w1)
    end.
Proof.
  revert w. induction xs as [|x xs IH]; intros w; [done|].
  simpl. unfold mbind, M_bind.
  destruct (receive_and_load x w) as [[message|e] w1]; [|done].
  destruct (handle_message ws room_id message w1) as [[[]|e] w2]; [|done].
  apply IH.
Qed.

Lemma message_loop_streaming ws room_id inputs w st w' :
  message_loop ws room_id inputs w = (Ret st, w') → st = Streaming.
Proof.
  revert w. induction inputs as [|i inputs IH]; intros w; simpl.
  - by intros [= <- _].
  - intros (message & w1 & _ & Hrest)%bind_ret_inv.
    apply bind_ret_inv in Hrest as ([] & w2 & _ & Hrest). by eapply IH.
Qed.

(** Both exception clauses start with [disconnect], go on without adding
    anybody, and end the coroutine normally. *)
Lemma on_exception_shape ws room_id e :
  ∃ k : M status,
    on_exception ws room_id e = Some (disconnect ws room_id;; k)
    ∧ admits_nobody k
    ∧ ∀ w, ∃ w', k w = (Ret Closed, w').
Proof.
  destruct e;
    try (exists (mret Closed); split; [done|]; split; [admits|]; intros w; by exists w).
  exists (user_count ← get_room_user_count room_id;
          broadcast_to_all room_id (user_count_message user_count);;
          mret Closed).
  split; [done|]. split; [admits|]. intros w.
  unfold get_room_user_count, get_connections, mbind, M_bind, mret, M_ret.
  rewrite broadcast_to_all_eq.
  destruct (broadcast_effect_any room_id
              (user_count_message (length (default [] (active_connections w !! room_id))))
              None w) as (w' & -> & _).
  by exists w'.
Qed.

Lemma on_exception_closes ws room_id e w :
  ∃ h w', on_exception ws room_id e = Some h ∧ h w = (Ret Closed, w').
Proof.
  destruct (on_exception_shape ws room_id e) as (k & -> & _ & Hk).
  destruct (Hk (set_connections (remove_conn ws room_id (active_connections w)) w))
    as (w' & Hw').
  eexists _, w'. split; [done|].
  unfold mbind, M_bind. by rewrite disconnect_eq.
Qed.

(** X10. No exception leaves the coroutine: run from its start or resumed in
    the loop, on any frames, in any world, whatever raises in between, it
    ends by returning or is left waiting for a frame. *)
Theorem no_exception_leaves_the_endpoint ws room_id inputs w :
  (∃ st w', websocket_endpoint ws room_id inputs w = (Ret st, w'))
  ∧ (∃ st w', resume ws room_id inputs w = (Ret st, w')).
Proof.
  assert (∀ (body : M status) w0,
            ∃ st w', finally_close ws (try_except body (on_exception ws room_id)) w0
                     = (Ret st, w')) as Hguard.
  { intros body w0. unfold finally_close, try_except.
    destruct (body w0) as [[st|e] w1]; [destruct st; simpl; by eauto|].
    destruct (on_exception_closes ws room_id e w1) as (h & w' & -> & ->).
    simpl. eauto. }
  split; [|apply Hguard].
  unfold websocket_endpoint. unfold mbind at 1, M_bind at 1, open_session.
  apply Hguard.
Qed.

(** The frames may be fed in pieces: running the loop on [xs ++ ys] is
    running it on [xs] and, if it is still waiting, resuming it on [ys];
    running the endpoint on [xs] is running it on no frame and, if it is
    waiting, resuming it on [xs].  A coroutine that has returned reads no
    further frame and changes nothing any more. *)
Theorem frames_can_be_fed_in_pieces ws room_id xs ys w :
  resume ws room_id (xs ++ ys) w
  = match resume ws room_id xs w with
    | (Ret Streaming, w1) => resume ws room_id ys w1
    | r => r
    end
  ∧ websocket_endpoint ws room_id xs w
    = match websocket_endpoint ws room_id [] w with
      | (Ret Streaming, w1) => resume ws room_id xs w1
      | r => r
      end.
Proof.
  split.
  - unfold resume at 1 2, finally_close, try_except. rewrite message_loop_app.
    destruct (message_loop ws room_id xs w) as [[st|e] w1] eqn:Hloop.
    + by rewrite (message_loop_streaming _ _ _ _ _ _ Hloop).
    + destruct (on_exception_closes ws room_id e w1) as (h & w' & -> & ->). done.
  - unfold websocket_endpoint, open_session, finally_close, try_except, mbind, M_bind.
    destruct (join ws room_id _) as [[[|]|e] w1]; [done|done|].
    destruct (on_exception_closes ws room_id e w1) as (h & w' & -> & ->). done.
Qed.

Lemma admits_nobody_at_most {A} ws room_id (m : M A) :
  admits_nobody m → admits_at_most ws room_id m.
Proof.
  intros Hm w r. case_decide; [|apply Hm]. apply sublist_inserts_r, Hm.
Qed.

Lemma admits_at_most_bind_l {A B} ws room_id (m : M A) (f : A → M B) :
  admits_at_most ws room_id m → (∀ a, admits_nobody (f a)) →
  admits_at_most ws room_id (m ≫= f).
Proof.
  intros Hm Hf w r. specialize (Hm w r). unfold run, mbind, M_bind in *.
  destruct (m w) as [[a|e] w']; simpl in *; [|done].
  etrans; [apply Hf|done].
Qed.

Lemma admits_at_most_bind_r {A B} ws room_id (m : M A) (f : A → M B) :
  admits_nobody m → (∀ a, admits_at_most ws room_id (f a)) →
  admits_at_most ws room_id (m ≫= f).
Proof.
  intros Hm Hf w r. specialize (Hm w r). unfold run, mbind, M_bind in *.
  destruct (m w) as [[a|e] w']; simpl in *.
  - etrans; [apply Hf|]. case_decide; [|done]. by apply sublist_app.
  - case_decide; [|done]. by apply sublist_inserts_r.
Qed.

Lemma admits_at_most_try_except {A} ws room_id (body : M A) handler :
  admits_at_most ws room_id body →
  (∀ e h, handler e = Some h → admits_nobody h) →
  admits_at_most ws room_id (try_except body handler).
Proof.
  intros Hb Hh w r. specialize (Hb w r). unfold run, try_except in *.
  destruct (body w) as [[a|e] w']; simpl in *; [done|].
  destruct (handler e) as [h|] eqn:He; [|done].
  etrans; [by eapply Hh|done].
Qed.

Lemma admits_at_most_finally_close ws room_id (body : M status) :
  admits_at_most ws room_id body → admits_at_most ws room_id (finally_close ws body).
Proof.
  intros Hb w r. unfold members at 1. rewrite finally_close_connections. apply Hb.
Qed.

Lemma admits_at_most_connect ws room_id : admits_at_most ws room_id (connect ws room_id).
Proof.
  intros w r. unfold run.
  destruct (chan_fault w ws OpAccept) as [e|] eqn:Hacc.
  - assert (connect ws room_id w = (Raise e, w)) as ->
      by (unfold connect, accept, mbind, M_bind; by rewrite Hacc).
    simpl. case_decide; [by apply sublist_inserts_r|done].
  - rewrite connect_eq by done. unfold members at 1. simpl.
    case_decide as Hr.
    + subst r. by rewrite lookup_insert_eq.
    + by rewrite lookup_insert_ne.
Qed.

Lemma admits_at_most_join ws room_id : admits_at_most ws room_id (join ws room_id).
Proof.
  unfold join. apply admits_at_most_bind_r; [admits|]. intros [room|].
  - apply admits_at_most_bind_l; [apply admits_at_most_connect|]. intros _. admits.
  - apply admits_nobody_at_most. admits.
Qed.

Lemma admits_at_most_body ws room_id inputs :
  admits_at_most ws room_id
    (admitted ← join ws room_id;
     if admitted : bool then message_loop ws room_id inputs else mret Closed).
Proof.
  apply admits_at_most_bind_l; [apply admits_at_most_join|].
  intros [|]; [apply admits_nobody_message_loop|admits].
Qed.

(** X11. A run of the endpoint for [ws] on [room_id], on any frames and
    whatever fails, adds to the manager's dictionary at most the socket
    [ws] itself, once, at the end of the list of [room_id]; it adds
    nothing to any other room. *)
Theorem the_endpoint_admits_only_its_own_socket ws room_id inputs w r :
  members r (run (websocket_endpoint ws room_id inputs) w)
  `sublist_of` (if decide (r = room_id) then members r w ++ [ws] else members r w).
Proof.
  apply admits_at_most_bind_r; [by intros w0 r0|intros _].
  apply admits_at_most_finally_close, admits_at_most_try_except;
    [apply admits_at_most_body|apply admits_nobody_on_exception].
Qed.

Lemma sublist_singleton_r {A} (l : list A) x : l `sublist_of` [x] → l = [] ∨ l = [x].
Proof.
  intros Hs. apply sublist_cons_r in Hs as [Hs|(l' & -> & Hs)].
  - left. by apply sublist_nil_r.
  - right. f_equal. by apply sublist_nil_r.
Qed.

Lemma disconnect_removes_the_newcomer ws room_id l0 w :
  ws ∉ l0 →
  members room_id w `sublist_of` l0 ++ [ws] →
  ws ∉ members room_id (run (disconnect ws room_id) w).
Proof.
  intros Hfresh Hs. rewrite members_after_disconnect.
  apply sublist_app_r in Hs as (l1 & l2 & -> & Hl1 & Hl2).
  assert (ws ∉ l1) as Hws1 by (intros ?; by eapply Hfresh, elem_of_sublist).
  destruct (sublist_singleton_r _ _ Hl2) as [->| ->].
  - rewrite app_nil_r, list_remove_not_elem_of by done. done.
  - rewrite list_remove_middle by done. simpl. by rewrite app_nil_r.
Qed.

Lemma join_refused_keeps_connections ws room_id w w' :
  join ws room_id w = (Ret false, w') → active_connections w' = active_connections w.
Proof.
  unfold join.
  intros (room & w1 & Hget & Hrest)%bind_ret_inv.
  destruct (get_room_same_outside _ _ _ _ _ Hget) as (Hconns & _).
  destruct room as [room|].
  - apply bind_ret_inv in Hrest as ([] & w2 & _ & Hrest).
    apply bind_ret_inv in Hrest as ([] & w3 & _ & Hrest).
    apply bind_ret_inv in Hrest as (n & w4 & _ & Hrest).
    apply bind_ret_inv in Hrest as ([] & w5 & _ & Hrest). done.
  - apply bind_ret_inv in Hrest as ([] & w2 & Hclose & Hrest).
    injection Hrest as <-. unfold close in Hclose.
    destruct (chan_fault w1 ws OpClose); [done|]. by injection Hclose as <-.
Qed.

(** X12. Membership does not leak.  A socket that is not listed under the room
    when its coroutine starts is not listed under it when the coroutine
    has returned, however it came to return: room not found, an [accept],
    a send or a query that raised, a disconnect, a bad frame, a failed
    commit. *)
Theorem a_returned_coroutine_leaves_no_member_behind ws room_id inputs w w' :
  ws ∉ members room_id w →
  websocket_endpoint ws room_id inputs w = (Ret Closed, w') →
  ws ∉ members room_id w'.
Proof.
  intros Hfresh. unfold websocket_endpoint.
  unfold mbind at 1, M_bind at 1, open_session.
  set (w0 := set_sessions (delete ws (sessions w)) w).
  unfold finally_close, try_except.
  pose proof (admits_at_most_body ws room_id inputs w0 room_id) as Hbody.
  unfold run in Hbody. rewrite decide_True in Hbody by done.
  change (members room_id w0) with (members room_id w) in Hbody.
  destruct ((admitted ← join ws room_id;
             if admitted : bool then message_loop ws room_id inputs
             else mret Closed) w0) as [[st|e] w1] eqn:Hrun; simpl in Hbody.
  - destruct st; [done|]. intros [= <-].
    apply bind_ret_inv in Hrun as ([|] & w2 & Hjoin & Hrest).
    + by apply message_loop_streaming in Hrest.
    + injection Hrest as <-. unfold members. simpl.
      by rewrite (join_refused_keeps_connections _ _ _ _ Hjoin).
  - destruct (on_exception_shape ws room_id e) as (k & -> & Hk & Hret).
    pose proof (disconnect_removes_the_newcomer ws room_id _ w1 Hfresh Hbody) as Hgone.
    pose proof (Hk (run (disconnect ws room_id) w1) room_id) as Hsub.
    unfold run, mbind, M_bind in *. rewrite disconnect_eq in *. simpl in *.
    destruct (Hret (set_connections (remove_conn ws room_id (active_connections w1)) w1))
      as (w2 & Hw2).
    rewrite Hw2 in Hsub |- *. simpl in Hsub. intros [= <-].
    intros Hin. apply Hgone. by eapply elem_of_sublist.
Qed.

Lemma a_returned_coroutine_leaves_no_member_behind_witness :
  9 ∉ members "abc12345"
        (run (websocket_endpoint 9 "abc12345" [BadFrame "{"]) world_two).
Proof.
  apply (a_returned_coroutine_leaves_no_member_behind
           9 "abc12345" [BadFrame "{"] world_two).
  - vm_compute. set_solver.
  - vm_compute. reflexivity.
Defined.

(** ** Leaving, moving the cursor, sharing output *)

(** X13. A client of the room, listed once, whose read raises
    [WebSocketDisconnect]: the coroutine returns, the socket is out of the
    room, and the only calls made are the fan-out of a [user_count]
    envelope over the members that are left, carrying their number, which
    is the old count less one.  The leaver is sent nothing; when it was
    the last member the room's entry is gone and nothing is sent at
    all. *)
Theorem a_disconnect_announces_the_decremented_count ws room_id w :
  ws ∈ members room_id w →
  NoDup (members room_id w) →
  ∃ w' others,
    resume ws room_id [Disconnect] w = (Ret Closed, w')
    ∧ list_remove ws (members room_id w) = Some others
    ∧ S (length others) = length (members room_id w)
    ∧ new_events w w'
      = fan_out w (user_count_message (length others)) None others
    ∧ (∀ c, c ∈ members room_id w → c ≠ ws → accepts w c →
         user_count_message (length others) ∈ inbox c (new_events w w'))
    ∧ inbox ws (new_events w w') = []
    ∧ (ws ∉ members room_id w')
    ∧ (others = [] → active_connections w' !! room_id = None ∧ new_events w w' = []).
Proof.
  intros Hws Hnd.
  destruct (list_remove_is_Some ws _ Hws) as [others Hothers].
  destruct (list_remove_NoDup _ _ _ Hnd Hothers) as [Hgone Hnd'].
  pose proof (members_after_disconnect ws room_id w) as Hm.
  rewrite Hothers in Hm. simpl in Hm. unfold run in Hm. rewrite disconnect_eq in Hm.
  simpl in Hm.
  set (w1 := set_connections (remove_conn ws room_id (active_connections w)) w) in *.
  destruct (broadcast_effect_any room_id (user_count_message (length others)) None w1)
    as (w' & Hb & Hcalls & Hm' & _).
  rewrite Hm in Hcalls, Hm'.
  exists (close_session ws w'), others. split.
  { rewrite resume_disconnect. unfold mbind at 1, M_bind at 1. rewrite disconnect_eq.
    fold w1. unfold get_room_user_count, get_connections, mbind, M_bind, mret, M_ret.
    fold (members room_id w1). rewrite Hm, broadcast_to_all_eq, Hb. done. }
  split; [done|]. split; [symmetry; by eapply list_remove_length|].
  assert (new_events w (close_session ws w')
          = fan_out w (user_count_message (length others)) None others) as Hev.
  { apply new_events_calls. simpl. by rewrite Hcalls. }
  change (members room_id (close_session ws w')) with (members room_id w').
  rewrite Hev. split; [done|].
  split; [|split; [|split]].
  - intros c Hc Hne Ha. apply elem_of_inbox_fan_out.
    split; [done|]. split; [|done].
    by apply (list_remove_elem_of_ne ws (members room_id w)).
  - apply inbox_fan_out_nil. right; by right.
  - rewrite Hm'. intros [_ ?]%list_elem_of_filter. done.
  - intros ->. split; [|done].
    assert (active_connections w1 !! room_id = None) as Hnone.
    { subst w1. simpl. unfold remove_conn. unfold members in Hothers.
      destruct (active_connections w !! room_id) as [l1|] eqn:Hl1; [|done].
      simpl in Hothers. rewrite Hothers. apply lookup_delete_eq. }
    rewrite (broadcast_absent _ _ _ _ Hnone) in Hb. by injection Hb as <-.
Qed.

Lemma a_disconnect_announces_the_decremented_count_witness :
  ∃ w' others,
    resume 1 "abc12345" [Disconnect] world_two = (Ret Closed, w')
    ∧ list_remove 1 (members "abc12345" world_two) = Some others
    ∧ S (length others) = length (members "abc12345" world_two)
    ∧ new_events world_two w'
      = fan_out world_two (user_count_message (length others)) None others
    ∧ (∀ c, c ∈ members "abc12345" world_two → c ≠ 1 → accepts world_two c →
         user_count_message (length others) ∈ inbox c (new_events world_two w'))
    ∧ inbox 1 (new_events world_two w') = []
    ∧ (1 ∉ members "abc12345" w')
    ∧ (others = [] →
       active_connections w' !! "abc12345" = None ∧ new_events world_two w' = []).
Proof.
  apply (a_disconnect_announces_the_decremented_count 1 "abc12345" world_two).
  - vm_compute. set_solver.
  - vm_compute. repeat constructor; set_solver.
Defined.

Lemma str_eq_true v s : str_eq v s = true → v = JStr s.
Proof.
  destruct v; simpl; try done. intros Hs. apply bool_decide_eq_true in Hs. by subst.
Qed.

Lemma handle_cursor_move ws room_id fields w :
  str_eq (message_type_of fields) "cursor_move" = true →
  handle_message ws room_id (JObj fields) w =
    broadcast room_id (cursor_move_message (cursor_position_of fields)) (Some ws) w.
Proof.
  intros Ht%str_eq_true. unfold message_type_of in Ht.
  unfold handle_message, py_get.
  unfold mbind at 1, M_bind at 1, mret at 1, M_ret at 1. cbv beta iota.
  rewrite Ht.
  change (str_eq (JStr "cursor_move") "code_update") with false.
  change (str_eq (JStr "cursor_move") "cursor_move") with true.
  cbv beta iota. reflexivity.
Qed.

Lemma handle_code_output ws room_id fields w :
  str_eq (message_type_of fields) "code_output" = true →
  handle_message ws room_id (JObj fields) w =
    broadcast_to_all room_id
      (code_output_message (default JNull (assoc_get "output" fields))
                           (default JNull (assoc_get "error" fields))
                           (default (JStr "running") (assoc_get "status" fields))) w.
Proof.
  intros Ht%str_eq_true. unfold message_type_of in Ht.
  unfold handle_message, py_get.
  unfold mbind at 1, M_bind at 1, mret at 1, M_ret at 1. cbv beta iota.
  rewrite Ht.
  change (str_eq (JStr "code_output") "code_update") with false.
  change (str_eq (JStr "code_output") "cursor_move") with false.
  change (str_eq (JStr "code_output") "code_output") with true.
  cbv beta iota. reflexivity.
Qed.

(** X14. A [cursor_move] frame is relayed and nothing else: the envelope
    [{type, cursorPosition}], with position 0 when the frame has none, is
    sent to the other members, the sender gets nothing, the table is not
    read or written (so the frame goes through with the database down),
    and the coroutine stays in the loop. *)
Theorem cursor_move_is_relayed_and_never_stored ws room_id fields w :
  str_eq (message_type_of fields) "cursor_move" = true →
  let envelope := JObj [("type", JStr "cursor_move");
                        ("cursorPosition",
                         default (JNum 0) (assoc_get "cursorPosition" fields))] in
  ∃ w', resume ws room_id [Frame (JObj fields)] w = (Ret Streaming, w')
        ∧ rooms w' = rooms w
        ∧ new_events w w' = fan_out w envelope (Some ws) (members room_id w)
        ∧ (∀ c, c ∈ members room_id w → c ≠ ws → accepts w c →
             envelope ∈ inbox c (new_events w w'))
        ∧ inbox ws (new_events w w') = [].
Proof.
  intros Ht envelope.
  destruct (broadcast_effect_any room_id envelope (Some ws) w)
    as (w' & Hb & Hcalls & _ & _ & Hrooms & _).
  exists w'. split.
  { rewrite resume_frame, handle_cursor_move by done.
    unfold cursor_move_message, cursor_position_of. fold envelope. by rewrite Hb. }
  split; [done|]. rewrite (new_events_calls _ _ _ Hcalls). split; [done|]. split.
  - intros c Hc Hne Ha. apply elem_of_inbox_fan_out. by repeat split; [|congruence|].
  - apply inbox_fan_out_nil. by left.
Qed.

Lemma cursor_move_is_relayed_and_never_stored_witness :
  let w := {| active_connections := active_connections world_two;
              rooms := rooms world_two; sessions := sessions world_two;
              calls := calls world_two;
              chan_fault := chan_fault world_two;
              db_fault := commit_and_query_fail;
              bind_param := bind_param world_two |} in
  let fields := [("type", JStr "cursor_move"); ("cursorPosition", JNum 15)] in
  let envelope := JObj [("type", JStr "cursor_move");
                        ("cursorPosition",
                         default (JNum 0) (assoc_get "cursorPosition" fields))] in
  ∃ w', resume 1 "abc12345" [Frame (JObj fields)] w = (Ret Streaming, w')
        ∧ rooms w' = rooms w
        ∧ new_events w w' = fan_out w envelope (Some 1) (members "abc12345" w)
        ∧ (∀ c, c ∈ members "abc12345" w → c ≠ 1 → accepts w c →
             envelope ∈ inbox c (new_events w w'))
        ∧ inbox 1 (new_events w w') = [].
Proof.
  intros w fields.
  apply (cursor_move_is_relayed_and_never_stored 1 "abc12345" fields w).
  reflexivity.
Defined.

(** X15. A [code_output] frame is sent to every member of the room, the sender
    included, as the envelope [{type, output, error, status}] in which a
    missing [output] or [error] is [null] and a missing [status] is
    "running"; the table is not read or written and the coroutine stays in
    the loop. *)
Theorem code_output_reaches_everybody_sender_included ws room_id fields w :
  str_eq (message_type_of fields) "code_output" = true →
  let envelope := JObj [("type", JStr "code_output");
                        ("output", default JNull (assoc_get "output" fields));
                        ("error", default JNull (assoc_get "error" fields));
                        ("status", default (JStr "running") (assoc_get "status" fields))] in
  ∃ w', resume ws room_id [Frame (JObj fields)] w = (Ret Streaming, w')
        ∧ rooms w' = rooms w
        ∧ new_events w w' = fan_out w envelope None (members room_id w)
        ∧ (∀ c, c ∈ members room_id w → accepts w c →
             envelope ∈ inbox c (new_events w w')).
Proof.
  intros Ht envelope.
  destruct (broadcast_effect_any room_id envelope None w)
    as (w' & Hb & Hcalls & _ & _ & Hrooms & _).
  exists w'. split.
  { rewrite resume_frame, handle_code_output by done.
    unfold code_output_message. fold envelope. by rewrite broadcast_to_all_eq, Hb. }
  split; [done|]. rewrite (new_events_calls _ _ _ Hcalls). split; [done|].
  intros c Hc Ha. by apply elem_of_inbox_fan_out.
Qed.

Lemma code_output_reaches_everybody_sender_included_witness :
  let fields := [("type", JStr "code_output"); ("status", JStr "completed");
                 ("output", JStr "2")] in
  let envelope := JObj [("type", JStr "code_output");
                        ("output", default JNull (assoc_get "output" fields));
                        ("error", default JNull (assoc_get "error" fields));
                        ("status", default (JStr "running") (assoc_get "status" fields))] in
  ∃ w', resume 1 "abc12345" [Frame (JObj fields)] world_two = (Ret Streaming, w')
        ∧ rooms w' = rooms world_two
        ∧ new_events world_two w'
          = fan_out world_two envelope None (members "abc12345" world_two)
        ∧ (∀ c, c ∈ members "abc12345" world_two → accepts world_two c →
             envelope ∈ inbox c (new_events world_two w')).
Proof.
  intros fields.
  apply (code_output_reaches_everybody_sender_included 1 "abc12345" fields world_two).
  reflexivity.
Defined.

(** * Further properties of the room store *)

(** X16. [update_room_code] never adds or deletes a row, never changes a
    room's language and never touches the row of another room or the
    manager's dictionary.  When it returns [True] the room had a row and
    the commit was made; the row's code is then what the driver makes of
    the new value, except when the session held the row unexpired with a
    code equal to the new value: then the table is exactly what it was.
    When it returns [False] the room had no row, and when it raises the
    exception is a [SQLAlchemyError]; in both cases the table is what it
    was and no commit was made. *)
Theorem update_room_code_only_rewrites_an_existing_row db room_id new_code w :
  ∃ r w', update_room_code db room_id new_code w = (r, w')
          ∧ (∀ k, language <$> rooms w' !! k = language <$> rooms w !! k)
          ∧ (∀ k, k ≠ room_id → rooms w' !! k = rooms w !! k)
          ∧ active_connections w' = active_connections w
          ∧ match r with
            | Ret true =>
                ∃ row, rooms w !! room_id = Some row
                       ∧ calls w' = calls w ++ [EvCommit room_id new_code]
                       ∧ if same_as_loaded new_code (code (held db room_id row w))
                         then rooms w' = rooms w
                         else ∃ v, column_value w new_code = Some v
                                   ∧ rooms w' !! room_id
                                     = Some {| code := v; language := language row |}
            | Ret false =>
                rooms w !! room_id = None ∧ rooms w' = rooms w ∧ calls w' = calls w
            | Raise e =>
                e = SQLAlchemyError ∧ rooms w' = rooms w ∧ calls w' = calls w
            end.
Proof.
  destruct (db_fault w OpQuery) eqn:Hq.
  { exists (Raise SQLAlchemyError), w.
    unfold update_room_code, get_room, mbind, M_bind. by rewrite Hq. }
  destruct (rooms w !! room_id) as [row|] eqn:Hrow.
  2: { exists (Ret false), w. by rewrite update_room_code_missing. }
  destruct (get_room_held db room_id row w Hq Hrow)
    as (w0 & Hget & Hconns & Hrooms & Hcalls & Hchan & Hdb & Hbind).
  unfold update_room_code, mbind, M_bind. rewrite Hget. unfold commit_code.
  rewrite Hdb. destruct (db_fault w OpCommit).
  { exists (Raise SQLAlchemyError), w0. by rewrite Hrooms, Hcalls. }
  destruct (same_as_loaded new_code (code (held db room_id row w))) eqn:Hsame.
  { eexists _, _. split; [done|].
    assert (∀ held', rooms (set_identity_map db held' w0) = rooms w) as Hr
      by (intros ?; by destruct db).
    assert (∀ held', active_connections (set_identity_map db held' w0)
                     = active_connections w) as Ha
      by (intros ?; by destruct db).
    assert (∀ held', calls (set_identity_map db held' w0) = calls w) as Hl
      by (intros ?; by destruct db).
    simpl. rewrite Hr, Ha, Hl. repeat split; try done.
    exists row. by rewrite Hsame. }
  assert (column_value w0 new_code = column_value w new_code) as ->
    by (unfold column_value; by rewrite Hbind).
  destruct (column_value w new_code) as [v|] eqn:Hv.
  2: { exists (Raise SQLAlchemyError), w0. by rewrite Hrooms, Hcalls. }
  eexists _, _. split; [done|].
  assert (∀ held', active_connections (set_identity_map db held' w0)
                   = active_connections w) as Ha
    by (intros ?; by destruct db).
  assert (∀ held', calls (set_identity_map db held' w0) = calls w) as Hl
    by (intros ?; by destruct db).
  simpl. rewrite Ha, Hl, Hrooms, (alter_present _ _ _ row) by done.
  split; [|split; [|split; [done|]]].
  - intros k. rewrite lookup_insert. case_decide; [|done]. subst k. by rewrite Hrow.
  - intros k Hk. by rewrite lookup_insert_ne.
  - exists row. split; [done|]. split; [done|]. rewrite Hsame.
    exists v. split; [done|]. by rewrite lookup_insert_eq.
Qed.

(** Right after a commit the session holds nothing unexpired. *)
Lemma held_expired db room_id row w w' :
  sessions w' = sessions (set_identity_map db ((λ _, Expired) <$> identity_map db w) w) →
  held db room_id row w' = row.
Proof.
  intros Hs. unfold held, identity_map. destruct db as [|ws]; [done|].
  rewrite Hs. simpl. rewrite lookup_insert_eq. simpl. rewrite lookup_fmap.
  by destruct (default ∅ (sessions w !! ws) !! room_id).
Qed.

(** X17. The second of two updates that a session makes in a row is always
    in the table afterwards: the commit of the first update has expired
    what the session held, so the second one starts from the row as the
    table has it.  Whatever the first update wrote or did not write, the
    row ends with the code of the second, as the driver writes it, and
    with its language unchanged. *)
Theorem the_last_update_of_the_code_wins db room_id code1 code2 v2 w w1 :
  update_room_code db room_id code1 w = (Ret true, w1) →
  column_value w code2 = Some v2 →
  db_fault w OpQuery = false →
  db_fault w OpCommit = false →
  ∃ row w2, rooms w !! room_id = Some row
            ∧ update_room_code db room_id code2 w1 = (Ret true, w2)
            ∧ rooms w2 !! room_id = Some {| code := v2; language := language row |}.
Proof.
  intros Hfirst Hv2 Hq Hc.
  destruct (rooms w !! room_id) as [row|] eqn:Hrow.
  2: { by rewrite update_room_code_missing in Hfirst. }
  destruct (get_room_held db room_id row w Hq Hrow)
    as (w0 & Hget & Hconns & Hrooms & Hcalls & Hchan & Hdb & Hbind).
  unfold update_room_code, mbind, M_bind in Hfirst. rewrite Hget in Hfirst.
  unfold commit_code in Hfirst. rewrite Hdb, Hc in Hfirst.
  assert (∃ row1,
            rooms w1 !! room_id = Some row1
            ∧ language row1 = language row
            ∧ held db room_id row1 w1 = row1
            ∧ db_fault w1 = db_fault w
            ∧ bind_param w1 = bind_param w) as (row1 & Hrow1 & Hlang & Hheld & Hdb1 & Hb1).
  { destruct (same_as_loaded code1 (code (held db room_id row w))).
    - injection Hfirst as <-. exists row.
      split; [destruct db; simpl; by rewrite ?Hrooms|].
      split; [done|]. split; [apply (held_expired _ _ _ w0); by destruct db|by destruct db].
    - destruct (column_value w0 code1) as [v1|]; [|done].
      injection Hfirst as <-. exists (write_code v1 row).
      split.
      { simpl. destruct db; simpl; by rewrite Hrooms, lookup_alter_eq, Hrow. }
      split; [done|]. split; [apply (held_expired _ _ _ w0); by destruct db|by destruct db]. }
  destruct (update_room_code_done db room_id code2 v2 row1 w1)
    as (w2 & Hsecond & _ & _ & _ & _ & _ & Hrooms2).
  { by rewrite Hdb1. }
  { by rewrite Hdb1. }
  { done. }
  { unfold column_value in *. by rewrite Hb1. }
  exists row, w2. split; [done|]. split; [done|].
  rewrite Hrooms2, Hheld.
  destruct (same_as_loaded code2 (code row1)) eqn:Hsame.
  - rewrite Hrow1. f_equal. destruct row1 as [c1 l1]. simpl in *. subst l1.
    f_equal. destruct code2, c1; simpl in Hsame; try done.
    + by injection Hv2 as <-.
    + apply bool_decide_eq_true in Hsame. subst. by injection Hv2 as <-.
  - rewrite lookup_insert_eq. unfold write_code. by rewrite Hlang.
Qed.

Lemma the_last_update_of_the_code_wins_witness :
  ∃ row w2,
    rooms world_two_after_y2 !! "abc12345" = Some row
    ∧ update_room_code (SessionOf 1) "abc12345" (JStr "z=3")
        (run (update_room_code (SessionOf 1) "abc12345" (JStr "x=1")) world_two_after_y2)
      = (Ret true, w2)
    ∧ rooms w2 !! "abc12345" = Some {| code := JStr "z=3"; language := language row |}.
Proof.
  apply (the_last_update_of_the_code_wins
           (SessionOf 1) "abc12345" (JStr "x=1") (JStr "z=3") (JStr "z=3")
           world_two_after_y2
           (run (update_room_code (SessionOf 1) "abc12345" (JStr "x=1"))
                world_two_after_y2));
    vm_compute; reflexivity.
Defined.

(** X22. A [code_update] frame carrying a string (or no code at all, which
    counts as the empty string), with the room's row present and the
    database up: the commit comes first, then the envelope
    [{type, code, cursorPosition}] rebuilt from the frame is sent to the
    other members, the sender gets nothing and the coroutine stays in the
    loop.  The row takes the carried code, its language untouched, except
    when the sender's session still holds, unexpired, a row whose code is
    that same string: then the code column is not written and the table
    is left as it is, whatever the other clients have stored since. *)
Theorem code_update_is_relayed_and_stored_unless_the_session_holds_it
    ws room_id fields s row w :
  str_eq (message_type_of fields) "code_update" = true →
  code_of fields = JStr s →
  db_fault w OpQuery = false →
  db_fault w OpCommit = false →
  rooms w !! room_id = Some row →
  let envelope := code_update_message (JStr s) (cursor_position_of fields) in
  ∃ w', resume ws room_id [Frame (JObj fields)] w = (Ret Streaming, w')
        ∧ rooms w'
          = (if same_as_loaded (JStr s) (code (held (SessionOf ws) room_id row w))
             then rooms w
             else <[room_id := {| code := JStr s; language := language row |}]> (rooms w))
        ∧ new_events w w'
          = EvCommit room_id (JStr s)
            :: fan_out w envelope (Some ws) (members room_id w)
        ∧ (∀ c, c ∈ members room_id w → c ≠ ws → accepts w c →
             envelope ∈ inbox c (new_events w w'))
        ∧ inbox ws (new_events w w') = [].
Proof.
  intros Ht Hcode Hq Hc Hrow envelope.
  destruct (update_room_code_done (SessionOf ws) room_id (JStr s) (JStr s) row w)
    as (w1 & Hup & Hconns & Hcalls & Hchan & Hdb & _ & Hrooms); [done..|].
  destruct (broadcast_effect_any room_id envelope (Some ws) w1)
    as (w' & Hb & Hcalls' & _ & _ & Hrooms' & _).
  assert (members room_id w1 = members room_id w) as Hm
    by (unfold members; by rewrite Hconns).
  exists w'. split.
  { rewrite resume_frame. rewrite handle_code_update by done. rewrite Hcode.
    unfold mbind, M_bind. rewrite Hup. fold envelope. by rewrite Hb. }
  split; [by rewrite Hrooms', Hrooms|].
  assert (new_events w w'
          = EvCommit room_id (JStr s)
            :: fan_out w envelope (Some ws) (members room_id w)) as Hev.
  { apply new_events_calls. rewrite Hcalls', Hcalls, Hm, <- app_assoc. simpl.
    do 2 f_equal. by apply fan_out_env. }
  rewrite Hev. split; [done|]. split.
  - intros c Hcl Hne Ha. simpl.
    apply elem_of_inbox_fan_out. by repeat split; [|congruence|].
  - simpl. apply inbox_fan_out_nil. by left.
Qed.

Lemma code_update_is_relayed_and_stored_unless_the_session_holds_it_witness :
  let envelope := code_update_message (JStr "y=2") (cursor_position_of update_y2) in
  ∃ w', resume 2 "abc12345" [Frame (JObj update_y2)] world_two = (Ret Streaming, w')
        ∧ rooms w'
          = (if same_as_loaded (JStr "y=2")
                  (code (held (SessionOf 2) "abc12345" sample_room world_two))
             then rooms world_two
             else <["abc12345" := {| code := JStr "y=2";
                                    language := language sample_room |}]>
                    (rooms world_two))
        ∧ new_events world_two w'
          = EvCommit "abc12345" (JStr "y=2")
            :: fan_out world_two envelope (Some 2) (members "abc12345" world_two)
        ∧ (∀ c, c ∈ members "abc12345" world_two → c ≠ 2 → accepts world_two c →
             envelope ∈ inbox c (new_events world_two w'))
        ∧ inbox 2 (new_events world_two w') = [].
Proof.
  apply (code_update_is_relayed_and_stored_unless_the_session_holds_it
           2 "abc12345" update_y2 "y=2" sample_room world_two);
    vm_compute; reflexivity.
Defined.

Lemma create_room_created uuid room_language w :
  db_fault w OpCommit = false →
  db_fault w OpQuery = false →
  rooms w !! String.substring 0 8 uuid = None →
  create_room uuid room_language w
  = (Ret (String.substring 0 8 uuid),
     log (EvCommit (String.substring 0 8 uuid) (JStr welcome_code))
         (set_rooms (<[String.substring 0 8 uuid :=
                         {| code := JStr welcome_code; language := room_language |}]>
                       (rooms w)) w)).
Proof.
  intros Hc Hq Hfree. unfold create_room, add_and_commit, refresh, mbind, M_bind.
  rewrite Hc, Hfree. simpl. by rewrite Hq.
Qed.

(** X18. A room that was just created can be looked up and joined: with the
    database up and the drawn identifier free, [create_room] returns the
    first 8 characters of the identifier, [get_room] on it returns a row
    with the welcome text and the requested language, no other row and no
    connection has changed, and a client that then joins (its socket taking
    the accept and the sends) is sent an [init] envelope with the welcome
    text first. *)
Theorem a_created_room_can_be_fetched_and_joined uuid room_language ws w :
  db_fault w OpCommit = false →
  db_fault w OpQuery = false →
  rooms w !! String.substring 0 8 uuid = None →
  chan_fault w ws OpAccept = None →
  accepts w ws →
  let room := {| code := JStr welcome_code; language := room_language |} in
  ∃ room_id w1 w2,
    create_room uuid room_language w = (Ret room_id, w1)
    ∧ room_id = String.substring 0 8 uuid
    ∧ get_room NewSession room_id w1 = (Ret (Some room), w1)
    ∧ (∀ k, k ≠ room_id → rooms w1 !! k = rooms w !! k)
    ∧ active_connections w1 = active_connections w
    ∧ websocket_endpoint ws room_id [] w1 = (Ret Streaming, w2)
    ∧ head (inbox ws (new_events w1 w2))
      = Some (JObj [("type", JStr "init"); ("code", JStr welcome_code);
                    ("roomId", JStr room_id); ("language", JStr room_language)]).
Proof.
  intros Hc Hq Hfree Hacc Hsend room.
  eexists _, _, _. split; [by apply create_room_created|]. split; [done|].
  split; [|split; [|split; [done|]]].
  - unfold get_room. simpl. by rewrite Hq, lookup_insert_eq.
  - intros k Hk. simpl. by rewrite lookup_insert_ne.
  - split.
    + apply (endpoint_admitted _ _ room); [done| |done|done].
      simpl. by rewrite lookup_insert_eq.
    + rewrite after_join_events. simpl. by rewrite decide_True.
Qed.

Lemma a_created_room_can_be_fetched_and_joined_witness :
  let uuid := "3f2a9c1e-7b64-4d0a-9c7e-1f2e3d4c5b6a" in
  let room := {| code := JStr welcome_code; language := "python" |} in
  ∃ room_id w1 w2,
    create_room uuid "python" world0 = (Ret room_id, w1)
    ∧ room_id = String.substring 0 8 uuid
    ∧ get_room NewSession room_id w1 = (Ret (Some room), w1)
    ∧ (∀ k, k ≠ room_id → rooms w1 !! k = rooms world0 !! k)
    ∧ active_connections w1 = active_connections world0
    ∧ websocket_endpoint 1 room_id [] w1 = (Ret Streaming, w2)
    ∧ head (inbox 1 (new_events w1 w2))
      = Some (JObj [("type", JStr "init"); ("code", JStr welcome_code);
                    ("roomId", JStr room_id); ("language", JStr "python")]).
Proof.
  intros uuid.
  apply (a_created_room_can_be_fetched_and_joined uuid "python" 1 world0);
    vm_compute; reflexivity.
Defined.

(** X19. [create_room] never overwrites or removes a row and never touches
    the manager's dictionary: every row of the table is still there,
    unchanged, afterwards; and when the first 8 characters of the drawn
    identifier are already a room id, or the commit fails, it raises and
    the world is what it was. *)
Theorem create_room_never_overwrites_a_room uuid room_language w :
  ∃ r w', create_room uuid room_language w = (r, w')
          ∧ active_connections w' = active_connections w
          ∧ (∀ k room, rooms w !! k = Some room → rooms w' !! k = Some room)
          ∧ (is_Some (rooms w !! String.substring 0 8 uuid) ∨ db_fault w OpCommit = true →
             r = Raise SQLAlchemyError ∧ w' = w).
Proof.
  unfold create_room, add_and_commit, refresh, mbind, M_bind.
  destruct (db_fault w OpCommit) eqn:Hc.
  { eexists _, _. by repeat split. }
  destruct (rooms w !! String.substring 0 8 uuid) as [old|] eqn:Hold.
  { eexists _, _. by repeat split. }
  simpl. destruct (db_fault w OpQuery);
    (eexists _, _; split; [done|]; split; [done|]; split;
     [|by intros [[? [=]]|[=]]]);
    intros k room' Hk; simpl; rewrite lookup_insert_ne; congruence.
Qed.

(** A [code_update] whose code goes into the table but has no [len]. *)
Lemma code_update_without_len ws room_id fields v t room l w :
  str_eq (message_type_of fields) "code_update" = true →
  code_of fields = v →
  py_len v = raise TypeError →
  column_value w v = Some t →
  db_fault w OpQuery = false →
  db_fault w OpCommit = false →
  rooms w !! room_id = Some room →
  active_connections w !! room_id = Some l →
  let envelope := code_update_message v (cursor_position_of fields) in
  ∃ w', resume ws room_id [Frame (JObj fields)] w = (Ret Closed, w')
        ∧ rooms w'
          = (if same_as_loaded v (code (held (SessionOf ws) room_id room w))
             then rooms w
             else <[room_id := write_code t room]> (rooms w))
        ∧ new_events w w' = EvCommit room_id v :: fan_out w envelope (Some ws) l
        ∧ (∀ c, c ∈ l → c ≠ ws → accepts w c → envelope ∈ inbox c (new_events w w'))
        ∧ (NoDup l → ws ∉ members room_id w').
Proof.
  intros Ht Hcode Hlen Hv Hq Hc Hroom Hl envelope.
  destruct (update_room_code_done (SessionOf ws) room_id v t room w)
    as (w1 & Hup & Hconns & Hcalls & Hchan & Hdb & _ & Hrooms); [done..|].
  destruct (broadcast_effect_any room_id envelope (Some ws) w1)
    as (w2 & Hb & Hcalls2 & Hm2 & _ & Hrooms2 & _).
  assert (members room_id w1 = l) as Hm1
    by (unfold members; by rewrite Hconns, Hl).
  rewrite Hm1 in Hcalls2, Hm2.
  assert (handle_message ws room_id (JObj fields) w = (Raise TypeError, w2)) as Hh.
  { rewrite handle_code_update by done. rewrite Hcode.
    unfold mbind, M_bind. rewrite Hup. fold envelope. rewrite Hb.
    by rewrite Hlen. }
  exists (dropped ws room_id w2).
  split.
  { rewrite resume_frame, Hh.
    destruct (on_exception_unexpected ws room_id TypeError w2) as (h & -> & ->); done. }
  split; [simpl; by rewrite Hrooms2, Hrooms|].
  assert (new_events w (dropped ws room_id w2)
          = EvCommit room_id v :: fan_out w envelope (Some ws) l) as Hev.
  { apply new_events_calls. simpl. rewrite Hcalls2, Hcalls, <- app_assoc. simpl.
    do 2 f_equal. by apply fan_out_env. }
  rewrite Hev. split; [done|]. split.
  - intros c Hcl Hne Ha. simpl.
    apply elem_of_inbox_fan_out. by repeat split; [|congruence|].
  - intros Hnd.
    pose proof (members_after_disconnect ws room_id w2) as Hm.
    unfold run in Hm. rewrite disconnect_eq in Hm. cbn [snd] in Hm.
    change (members room_id (dropped ws room_id w2))
      with (members room_id
              (set_connections (remove_conn ws room_id (active_connections w2)) w2)).
    rewrite Hm.
    assert (NoDup (members room_id w2)) as Hnd2
      by (rewrite Hm2; by apply NoDup_filter).
    destruct (list_remove ws (members room_id w2)) as [l'|] eqn:Hrem; simpl.
    + by destruct (list_remove_NoDup _ _ _ Hnd2 Hrem).
    + intros Hin. apply list_remove_is_Some in Hin as [? Hin]. congruence.
Qed.

(** X20. A [code_update] frame whose [code] is JSON [null] is not rejected: with
    the row present and the database up, the commit is made, the envelope
    with code [null] is sent to the other members, and only then does
    [len(code)], evaluated for the debug log line, raise [TypeError]; that
    ends the sender's coroutine, which is taken out of the room if it was
    listed once.  The room's code is overwritten by NULL, except when the
    sender's session holds the row unexpired with a NULL code: then the
    table is left as it is. *)
Theorem code_update_with_null_code_wipes_the_code_and_ends_the_sender
    ws room_id fields room l w :
  str_eq (message_type_of fields) "code_update" = true →
  assoc_get "code" fields = Some JNull →
  db_fault w OpQuery = false →
  db_fault w OpCommit = false →
  rooms w !! room_id = Some room →
  active_connections w !! room_id = Some l →
  let envelope := JObj [("type", JStr "code_update"); ("code", JNull);
                        ("cursorPosition",
                         default (JNum 0) (assoc_get "cursorPosition" fields))] in
  ∃ w', resume ws room_id [Frame (JObj fields)] w = (Ret Closed, w')
        ∧ rooms w'
          = (if same_as_loaded JNull (code (held (SessionOf ws) room_id room w))
             then rooms w
             else <[room_id := {| code := JNull; language := language room |}]> (rooms w))
        ∧ new_events w w' = EvCommit room_id JNull :: fan_out w envelope (Some ws) l
        ∧ (∀ c, c ∈ l → c ≠ ws → accepts w c → envelope ∈ inbox c (new_events w w'))
        ∧ (NoDup l → ws ∉ members room_id w').
Proof.
  intros Ht Hnull Hq Hc Hroom Hl envelope.
  apply (code_update_without_len ws room_id fields JNull JNull room l w); try done.
  unfold code_of. by rewrite Hnull.
Qed.

Lemma code_update_with_null_code_wipes_the_code_and_ends_the_sender_witness :
  let fields := [("type", JStr "code_update"); ("code", JNull)] in
  let envelope := JObj [("type", JStr "code_update"); ("code", JNull);
                        ("cursorPosition",
                         default (JNum 0) (assoc_get "cursorPosition" fields))] in
  ∃ w', resume 1 "abc12345" [Frame (JObj fields)] world_two = (Ret Closed, w')
        ∧ rooms w'
          = (if same_as_loaded JNull
                  (code (held (SessionOf 1) "abc12345" sample_room world_two))
             then rooms world_two
             else <["abc12345" := {| code := JNull; language := language sample_room |}]>
                    (rooms world_two))
        ∧ new_events world_two w'
          = EvCommit "abc12345" JNull :: fan_out world_two envelope (Some 1) [1; 2]
        ∧ (∀ c, c ∈ [1; 2] → c ≠ 1 → accepts world_two c →
             envelope ∈ inbox c (new_events world_two w'))
        ∧ (NoDup [1; 2] → 1 ∉ members "abc12345" w').
Proof.
  intros fields.
  apply (code_update_with_null_code_wipes_the_code_and_ends_the_sender
           1 "abc12345" fields sample_room [1; 2] world_two);
    vm_compute; reflexivity.
Defined.

(** X23. A [code_update] frame whose [code] is a JSON number, with the row
    present and the database up: the text column takes what the driver
    writes for the number, the envelope relayed to the other members
    carries the number itself, and then [len(code)] raises [TypeError],
    which ends the sender's coroutine and takes it out of the room if it
    was listed once. *)
Theorem code_update_with_a_number_stores_its_text_and_ends_the_sender
    ws room_id fields n t room l w :
  str_eq (message_type_of fields) "code_update" = true →
  assoc_get "code" fields = Some (JNum n) →
  bind_param w (JNum n) = Some t →
  db_fault w OpQuery = false →
  db_fault w OpCommit = false →
  rooms w !! room_id = Some room →
  active_connections w !! room_id = Some l →
  let envelope := JObj [("type", JStr "code_update"); ("code", JNum n);
                        ("cursorPosition",
                         default (JNum 0) (assoc_get "cursorPosition" fields))] in
  ∃ w', resume ws room_id [Frame (JObj fields)] w = (Ret Closed, w')
        ∧ rooms w' = <[room_id := {| code := t; language := language room |}]> (rooms w)
        ∧ new_events w w' = EvCommit room_id (JNum n) :: fan_out w envelope (Some ws) l
        ∧ (∀ c, c ∈ l → c ≠ ws → accepts w c → envelope ∈ inbox c (new_events w w'))
        ∧ (NoDup l → ws ∉ members room_id w').
Proof.
  intros Ht Hnum Hbind Hq Hc Hroom Hl envelope.
  apply (code_update_without_len ws room_id fields (JNum n) t room l w); try done.
  unfold code_of. by rewrite Hnum.
Qed.

Lemma code_update_with_a_number_stores_its_text_and_ends_the_sender_witness :
  let fields := [("type", JStr "code_update"); ("code", JNum 5)] in
  let envelope := JObj [("type", JStr "code_update"); ("code", JNum 5);
                        ("cursorPosition",
                         default (JNum 0) (assoc_get "cursorPosition" fields))] in
  ∃ w', resume 1 "abc12345" [Frame (JObj fields)] world_two = (Ret Closed, w')
        ∧ rooms w'
          = <["abc12345" := {| code := JStr "5"; language := language sample_room |}]>
              (rooms world_two)
        ∧ new_events world_two w'
          = EvCommit "abc12345" (JNum 5) :: fan_out world_two envelope (Some 1) [1; 2]
        ∧ (∀ c, c ∈ [1; 2] → c ≠ 1 → accepts world_two c →
             envelope ∈ inbox c (new_events world_two w'))
        ∧ (NoDup [1; 2] → 1 ∉ members "abc12345" w').
Proof.
  intros fields.
  apply (code_update_with_a_number_stores_its_text_and_ends_the_sender
           1 "abc12345" fields 5 (JStr "5") sample_room [1; 2] world_two);
    vm_compute; reflexivity.
Defined.

(** X24. A [code_update] frame whose [code] the driver refuses to write (a
    list, say), with the row present: the flush raises inside
    [update_room_code], so nothing is stored, no commit is made, nothing
    is relayed to anybody, and the sender's coroutine ends and is taken
    out of the room. *)
Theorem code_update_with_a_refused_value_is_dropped ws room_id fields v room w :
  str_eq (message_type_of fields) "code_update" = true →
  assoc_get "code" fields = Some v →
  column_value w v = None →
  db_fault w OpQuery = false →
  rooms w !! room_id = Some room →
  ∃ w', resume ws room_id [Frame (JObj fields)] w = (Ret Closed, w')
        ∧ rooms w' = rooms w
        ∧ new_events w w' = []
        ∧ active_connections w' = remove_conn ws room_id (active_connections w).
Proof.
  intros Ht Hv Hnone Hq Hroom.
  assert (code_of fields = v) as Hcode by (unfold code_of; by rewrite Hv).
  assert (∃ w1, update_room_code (SessionOf ws) room_id v w = (Raise SQLAlchemyError, w1)
                ∧ same_outside_sessions w1 w) as (w1 & Hup & Hsame).
  { destruct (get_room_held (SessionOf ws) room_id room w Hq Hroom)
      as (w0 & Hget & Hsame).
    exists w0. split; [|done].
    unfold update_room_code, mbind, M_bind. rewrite Hget. unfold commit_code.
    destruct Hsame as (_ & _ & _ & _ & _ & Hbind).
    assert (column_value w0 v = None) as ->
      by (unfold column_value in *; by rewrite Hbind).
    assert (∀ loaded, same_as_loaded v loaded = false) as ->
      by (intros loaded; by destruct v).
    by destruct (db_fault w0 OpCommit). }
  destruct Hsame as (Hconns & Hrooms & Hcalls & _).
  exists (dropped ws room_id w1). split; [|split; [done|split]].
  - rewrite resume_frame. rewrite handle_code_update by done. rewrite Hcode.
    unfold mbind at 1, M_bind at 1. rewrite Hup.
    destruct (on_exception_unexpected ws room_id SQLAlchemyError w1)
      as (h & -> & ->); done.
  - unfold new_events. simpl. by rewrite Hcalls, drop_all.
  - simpl. by rewrite Hconns.
Qed.

Lemma code_update_with_a_refused_value_is_dropped_witness :
  let fields := [("type", JStr "code_update"); ("code", JArr [JNum 1; JNum 2])] in
  ∃ w', resume 1 "abc12345" [Frame (JObj fields)] world_two = (Ret Closed, w')
        ∧ rooms w' = rooms world_two
        ∧ new_events world_two w' = []
        ∧ active_connections w'
          = remove_conn 1 "abc12345" (active_connections world_two).
Proof.
  intros fields.
  apply (code_update_with_a_refused_value_is_dropped
           1 "abc12345" fields (JArr [JNum 1; JNum 2]) sample_room world_two);
    vm_compute; reflexivity.
Defined.

(** ** Join, join, leave *)

Lemma not_failed_on_iff w c : ¬ failed_on w None c ↔ accepts w c.
Proof.
  unfold failed_on. split.
  - intros Hf. destruct (decide (accepts w c)); [done|]. exfalso. by apply Hf.
  - intros Ha [_ Hf]. by apply Hf.
Qed.

Lemma members_after_join ws room_id room w :
  members room_id (after_join ws room_id room w)
  = filter (λ c, accepts w c) (members room_id w ++ [ws]).
Proof.
  unfold after_join, members at 1. cbn [active_connections set_connections].
  rewrite pruned_members by (simpl; by rewrite lookup_insert_eq).
  apply list_filter_iff. intros c. by rewrite not_failed_on_iff.
Qed.

Lemma calls_after_join ws room_id room w :
  calls (after_join ws room_id room w)
  = calls w
    ++ EvAccept ws
    :: EvSend ws (init_message room room_id)
    :: fan_out w (user_count_message (S (length (members room_id w)))) None
               (members room_id w ++ [ws]).
Proof.
  unfold after_join. simpl. rewrite length_app. simpl. rewrite Nat.add_1_r.
  by rewrite <- !app_assoc.
Qed.

(** What the clause [except WebSocketDisconnect] leaves behind. *)
Lemma leave_effect ws room_id others w :
  list_remove ws (members room_id w) = Some others →
  ∃ w', resume ws room_id [Disconnect] w = (Ret Closed, w')
        ∧ calls w'
          = calls w ++ fan_out w (user_count_message (length others)) None others
        ∧ members room_id w' = filter (λ c, accepts w c) others.
Proof.
  intros Hothers.
  pose proof (members_after_disconnect ws room_id w) as Hm.
  rewrite Hothers in Hm. simpl in Hm. unfold run in Hm.
  rewrite disconnect_eq in Hm. simpl in Hm.
  set (w1 := set_connections (remove_conn ws room_id (active_connections w)) w) in *.
  destruct (broadcast_effect_any room_id (user_count_message (length others)) None w1)
    as (w' & Hb & Hcalls & Hm' & _).
  rewrite Hm in Hcalls, Hm'.
  exists (close_session ws w'). split; [|split; [done|]].
  - rewrite resume_disconnect. unfold mbind at 1, M_bind at 1. rewrite disconnect_eq.
    fold w1. unfold get_room_user_count, get_connections, mbind, M_bind, mret, M_ret.
    fold (members room_id w1). rewrite Hm, broadcast_to_all_eq, Hb. done.
  - change (members room_id (close_session ws w')) with (members room_id w').
    rewrite Hm'. apply list_filter_iff. intros c. by rewrite not_failed_on_iff.
Qed.

Lemma fan_out_cons_accepting w message c l :
  accepts w c →
  fan_out w message None (c :: l) = EvSend c message :: fan_out w message None l.
Proof.
  intros Ha. unfold fan_out. rewrite filter_cons_True by done. simpl.
  unfold send_event at 1. by rewrite decide_True.
Qed.

(** X21. Scenario: in a room nobody is connected to, [a] joins, then [b]
    joins, then [a] disconnects, all sockets taking their sends.  Then [b]
    has been sent [init], [user_count] 2 and [user_count] 1, in this
    order and nothing else; [a] has been sent [init], [user_count] 1 and
    [user_count] 2 and nothing about its own leaving; and [b] is the only
    member left. *)
Theorem join_join_leave_counts_two_then_one a b room_id room w :
  a ≠ b →
  db_fault w OpQuery = false →
  rooms w !! room_id = Some room →
  active_connections w !! room_id = None →
  chan_fault w a OpAccept = None →
  chan_fault w b OpAccept = None →
  accepts w a →
  accepts w b →
  ∃ w1 w2 w3,
    websocket_endpoint a room_id [] w = (Ret Streaming, w1)
    ∧ websocket_endpoint b room_id [] w1 = (Ret Streaming, w2)
    ∧ resume a room_id [Disconnect] w2 = (Ret Closed, w3)
    ∧ inbox b (new_events w w3)
      = [init_message room room_id; user_count_message 2; user_count_message 1]
    ∧ inbox a (new_events w w3)
      = [init_message room room_id; user_count_message 1; user_count_message 2]
    ∧ members room_id w3 = [b].
Proof.
  intros Hab Hq Hroom Hempty Hacca Haccb Ha Hb.
  assert (members room_id w = []) as Hm0 by (unfold members; by rewrite Hempty).
  set (w1 := after_join a room_id room w).
  assert (members room_id w1 = [a]) as Hm1.
  { unfold w1. rewrite members_after_join, Hm0. simpl.
    by rewrite filter_cons_True, filter_nil by done. }
  assert (chan_fault w1 = chan_fault w) as Hf1 by done.
  set (w2 := after_join b room_id room w1).
  assert (members room_id w2 = [a; b]) as Hm2.
  { unfold w2. rewrite members_after_join, Hm1. simpl.
    rewrite filter_cons_True by (by apply (accepts_env w)).
    by rewrite filter_cons_True, filter_nil by (by apply (accepts_env w)). }
  assert (chan_fault w2 = chan_fault w) as Hf2 by done.
  destruct (leave_effect a room_id [b] w2) as (w3 & Hleave & Hcalls3 & Hm3).
  { rewrite Hm2. simpl. by rewrite decide_True. }
  exists w1, w2, w3.
  split; [by apply endpoint_admitted|].
  split; [by apply endpoint_admitted|].
  split; [done|].
  assert (accepts w1 a ∧ accepts w1 b ∧ accepts w2 b) as (Ha1 & Hb1 & Hb2)
    by (by rewrite !(accepts_env w)).
  assert (new_events w w3
          = [EvAccept a; EvSend a (init_message room room_id);
             EvSend a (user_count_message 1);
             EvAccept b; EvSend b (init_message room room_id);
             EvSend a (user_count_message 2); EvSend b (user_count_message 2);
             EvSend b (user_count_message 1)]) as ->.
  { apply new_events_calls. rewrite Hcalls3. unfold w2 at 1.
    rewrite calls_after_join. unfold w1 at 1. rewrite calls_after_join.
    rewrite Hm0, Hm1. simpl.
    rewrite !fan_out_cons_accepting by done.
    unfold fan_out. rewrite !filter_nil. simpl.
    by rewrite <- !app_assoc. }
  split; [|split].
  - simpl. repeat case_decide; congruence.
  - simpl. repeat case_decide; congruence.
  - rewrite Hm3. by rewrite filter_cons_True, filter_nil by done.
Qed.

Lemma join_join_leave_counts_two_then_one_witness :
  ∃ w1 w2 w3,
    websocket_endpoint 1 "abc12345" [] world0 = (Ret Streaming, w1)
    ∧ websocket_endpoint 2 "abc12345" [] w1 = (Ret Streaming, w2)
    ∧ resume 1 "abc12345" [Disconnect] w2 = (Ret Closed, w3)
    ∧ inbox 2 (new_events world0 w3)
      = [init_message sample_room "abc12345"; user_count_message 2;
         user_count_message 1]
    ∧ inbox 1 (new_events world0 w3)
      = [init_message sample_room "abc12345"; user_count_message 1;
         user_count_message 2]
    ∧ members "abc12345" w3 = [2].
Proof.
  apply (join_join_leave_counts_two_then_one 1 2 "abc12345" sample_room world0);
    first [reflexivity | discriminate | vm_compute; reflexivity].
Defined.
